(** * cloud-debug-java agent core: method-locals cache and debugger
    orchestrator

    A shallow embedding of [src/agent/method_locals.cc] and
    [src/agent/debugger.cc].

    - JVMTI is an injected environment of fallible queries; every query a
      function performs is recorded, with the error code it returned, in a
      trace of events, so that "the lookup failed" means a lookup that was
      really made.
    - [std::shared_ptr<Entry>] is an address into an allocation-only heap of
      [Entry] objects: two pointers are the same instance iff the addresses
      are equal.
    - [std::map<jmethodID, std::shared_ptr<Entry>>] is a [gmap].
    - [MutexLock] scopes are acquire/release events of the same trace.
    - Logging and JNI local references are left out. *)

From Stdlib Require Import ZArith Lia.
From stdpp Require Import base option numbers list gmap strings.

Local Open Scope Z_scope.

(** ** JNI / JVMTI data *)

Abbreviation jint := Z (only parsing).
Abbreviation jlocation := Z (only parsing).
Abbreviation jvmtiError := Z (only parsing).
(** [jmethodID] and [jclass] are opaque handles. *)
Abbreviation jmethodID := N (only parsing).
Abbreviation jclass := N (only parsing).

(** Error codes of [jvmti.h] that the agent tests for. *)
Definition JVMTI_ERROR_NONE : jvmtiError := 0.
Definition JVMTI_ERROR_ABSENT_INFORMATION : jvmtiError := 101.
Definition JVMTI_ERROR_NATIVE_METHOD : jvmtiError := 104.

(** Access flag of [classfile_constants.h]. *)
Definition JVM_ACC_STATIC : jint := 0x0008.

(** [jvmtiLocalVariableEntry]; a [char*] that may be null is an option. *)
Record jvmtiLocalVariableEntry := {
  start_location : jlocation;
  length : jint;
  name : string;
  signature : string;
  generic_signature : option string;
  slot : jint;
}.

(** Modelled from the spec: [JvmLocalVariableReader] is declared in
    [jvm_local_variable_reader.h], which is not part of the sources at hand.
    Its constructor takes the raw table entry and the is-argument flag; the
    descriptor is immutable once constructed. *)
Record LocalVariableReader := JvmLocalVariableReader {
  variable : jvmtiLocalVariableEntry;
  is_argument : bool;
}.

(** [MethodLocals::Entry]: a null [unique_ptr] is [None]. *)
Record Entry := {
  local_instance : option LocalVariableReader;
  locals : list LocalVariableReader;
}.

(** A default-constructed [Entry] ([new Entry]). *)
Definition new_Entry : Entry := {| local_instance := None; locals := [] |}.

(** The JVMTI queries the agent uses. Each returns the error code together
    with the value of its out-parameters, which the callers read only when
    the error code is [JVMTI_ERROR_NONE]. The entry count of
    [GetLocalVariableTable] is the length of the returned table. *)
Record jvmtiEnv := {
  GetMethodDeclaringClass : jmethodID → jvmtiError * jclass;
  GetMethodModifiers : jmethodID → jvmtiError * jint;
  GetClassSignature : jclass → jvmtiError * (string * option string);
  GetLocalVariableTable : jmethodID → jvmtiError * list jvmtiLocalVariableEntry;
  GetArgumentsSize : jmethodID → jvmtiError * jint;
}.

(** [LocalVariablesVisibilityPolicy::IsLocalVariablesDebuggerVisible]. *)
Abbreviation LocalVariablesVisibilityPolicy := (jclass → jmethodID → bool) (only parsing).

(** Address of an [Entry] on the heap. *)
Abbreviation ptr := nat (only parsing).

(** ** Events *)

Inductive event :=
  | MutexLock_acquire
  | MutexLock_release
  | map_find (method : jmethodID)
  | map_insert (method : jmethodID)
  | map_erase (method : jmethodID)
  | operator_new (p : ptr)
  | call_LoadEntry (method : jmethodID)
  | jvmti_GetMethodDeclaringClass (method : jmethodID) (err : jvmtiError)
  | jvmti_GetMethodModifiers (method : jmethodID) (err : jvmtiError)
  | jvmti_GetClassSignature (cls : jclass) (err : jvmtiError)
  | jvmti_GetLocalVariableTable (method : jmethodID) (err : jvmtiError)
  | jvmti_GetArgumentsSize (method : jmethodID) (err : jvmtiError)
  | policy_IsLocalVariablesDebuggerVisible
      (cls : jclass) (method : jmethodID) (visible : bool).

(** ** A computation that records the introspection calls it makes *)

Definition Traced (A : Type) : Type := A * list event.

#[global] Instance Traced_ret : MRet Traced := λ A a, (a, []).
#[global] Instance Traced_bind : MBind Traced := λ A B f m,
  let '(b, evs) := f m.1 in (b, m.2 ++ evs).

(** Perform a call: its result, and the event that records it. *)
Definition performed {A} (ev : event) (r : A) : Traced A := (r, [ev]).

Module MethodLocals.

Section Load.
(** [jvmti()] at the time of the call, and the policy the object was
    constructed with (a null pointer is [None]). *)
Variable jvmti : jvmtiEnv.
Variable local_variables_visibility_policy_ :
  option LocalVariablesVisibilityPolicy.

Definition LoadLocalInstance (cls : jclass) (method : jmethodID)
    : Traced (option LocalVariableReader) :=
  '(err, method_modifiers) ←
    (let r := GetMethodModifiers jvmti method in
     performed (jvmti_GetMethodModifiers method r.1) r);
  if decide (err ≠ JVMTI_ERROR_NONE) then mret None else
  (* Ignore static methods. *)
  if decide (Z.land method_modifiers JVM_ACC_STATIC ≠ 0) then mret None else
  '(err, (class_signature, class_generic)) ←
    (let r := GetClassSignature jvmti cls in
     performed (jvmti_GetClassSignature cls r.1) r);
  if decide (err ≠ JVMTI_ERROR_NONE) then mret None else
  let localInstance :=
    {| start_location := 0;
       length := -1;  (* The local variable is available everywhere. *)
       name := "this";
       signature := class_signature;
       generic_signature := class_generic;
       slot := 0 |} in
  (* Marking local instance as an argument. *)
  mret (Some (JvmLocalVariableReader localInstance true)).

Definition LoadEntry (method : jmethodID) : Traced (option Entry) :=
  (* Fetch the class in which the method is defined. *)
  '(err, cls) ←
    (let r := GetMethodDeclaringClass jvmti method in
     performed (jvmti_GetMethodDeclaringClass method r.1) r);
  if decide (err ≠ JVMTI_ERROR_NONE) then mret None else
  (* Load information about local instance. *)
  instance ← LoadLocalInstance cls method;
  let entry := {| local_instance := instance; locals := [] |} in
  visible ←
    match local_variables_visibility_policy_ with
    | None => mret true
    | Some policy =>
        performed
          (policy_IsLocalVariablesDebuggerVisible cls method (policy cls method))
          (policy cls method)
    end;
  if negb visible then mret (Some entry) else
  (* Load information about local variables. *)
  '(err, table) ←
    (let r := GetLocalVariableTable jvmti method in
     performed (jvmti_GetLocalVariableTable method r.1) r);
  let num_entries := Z.of_nat (List.length table) in
  if decide (err ≠ JVMTI_ERROR_NONE ∧
             err ≠ JVMTI_ERROR_ABSENT_INFORMATION ∧
             err ≠ JVMTI_ERROR_NATIVE_METHOD)
  then mret None else
  (* No debugging information, or a JNI method. *)
  if decide (err ≠ JVMTI_ERROR_NONE) then mret (Some entry) else
  (* How many slots are used for arguments. *)
  arguments_size ←
    (if decide (num_entries > 0) then
       '(err, arguments_size) ←
         (let r := GetArgumentsSize jvmti method in
          performed (jvmti_GetArgumentsSize method r.1) r);
       if decide (err ≠ JVMTI_ERROR_NONE) then mret 0 else mret arguments_size
     else mret 0);
  mret (Some {| local_instance := instance;
                locals :=
                  (λ local_variable_entry,
                     JvmLocalVariableReader
                       local_variable_entry
                       (slot local_variable_entry <? arguments_size))
                  <$> table |}).
End Load.

(** ** What a load can do

    The paths through [LoadLocalInstance] and [LoadEntry], one constructor
    per [return] statement, each with the queries made on the way. *)

Inductive instance_outcome (jvmti : jvmtiEnv) (cls : jclass) (method : jmethodID)
    : option LocalVariableReader → list event → Prop :=
  | instance_modifiers_failed err method_modifiers :
      GetMethodModifiers jvmti method = (err, method_modifiers) →
      err ≠ JVMTI_ERROR_NONE →
      instance_outcome jvmti cls method None
        [jvmti_GetMethodModifiers method err]
  | instance_static method_modifiers :
      GetMethodModifiers jvmti method = (JVMTI_ERROR_NONE, method_modifiers) →
      Z.land method_modifiers JVM_ACC_STATIC ≠ 0 →
      instance_outcome jvmti cls method None
        [jvmti_GetMethodModifiers method JVMTI_ERROR_NONE]
  | instance_signature_failed method_modifiers err sig :
      GetMethodModifiers jvmti method = (JVMTI_ERROR_NONE, method_modifiers) →
      Z.land method_modifiers JVM_ACC_STATIC = 0 →
      GetClassSignature jvmti cls = (err, sig) →
      err ≠ JVMTI_ERROR_NONE →
      instance_outcome jvmti cls method None
        [jvmti_GetMethodModifiers method JVMTI_ERROR_NONE;
         jvmti_GetClassSignature cls err]
  | instance_this method_modifiers class_signature class_generic :
      GetMethodModifiers jvmti method = (JVMTI_ERROR_NONE, method_modifiers) →
      Z.land method_modifiers JVM_ACC_STATIC = 0 →
      GetClassSignature jvmti cls =
        (JVMTI_ERROR_NONE, (class_signature, class_generic)) →
      instance_outcome jvmti cls method
        (Some (JvmLocalVariableReader
                 {| start_location := 0;
                    length := -1;
                    name := "this";
                    signature := class_signature;
                    generic_signature := class_generic;
                    slot := 0 |}
                 true))
        [jvmti_GetMethodModifiers method JVMTI_ERROR_NONE;
         jvmti_GetClassSignature cls JVMTI_ERROR_NONE].

(** The policy, when there is one, hides the locals of [method]. *)
Definition denied (policy : option LocalVariablesVisibilityPolicy)
    (cls : jclass) (method : jmethodID) : bool :=
  match policy with
  | None => false
  | Some policy => negb (policy cls method)
  end.

Definition policy_calls (policy : option LocalVariablesVisibilityPolicy)
    (cls : jclass) (method : jmethodID) : list event :=
  match policy with
  | None => []
  | Some policy =>
      [policy_IsLocalVariablesDebuggerVisible cls method (policy cls method)]
  end.

(** The queries [LoadEntry] makes before it turns to the variable table. *)
Definition prologue (jvmti : jvmtiEnv)
    (policy : option LocalVariablesVisibilityPolicy)
    (cls : jclass) (method : jmethodID) : list event :=
  jvmti_GetMethodDeclaringClass method JVMTI_ERROR_NONE
    :: (LoadLocalInstance jvmti cls method).2 ++ policy_calls policy cls method.

(** The descriptor made of a raw table entry. *)
Definition classify (arguments_size : jint)
    (local_variable_entry : jvmtiLocalVariableEntry) : LocalVariableReader :=
  JvmLocalVariableReader local_variable_entry
    (slot local_variable_entry <? arguments_size).

Inductive load_outcome (jvmti : jvmtiEnv)
    (policy : option LocalVariablesVisibilityPolicy) (method : jmethodID)
    : option Entry → list event → Prop :=
  | load_class_failed err cls :
      GetMethodDeclaringClass jvmti method = (err, cls) →
      err ≠ JVMTI_ERROR_NONE →
      load_outcome jvmti policy method None
        [jvmti_GetMethodDeclaringClass method err]
  | load_denied cls :
      GetMethodDeclaringClass jvmti method = (JVMTI_ERROR_NONE, cls) →
      denied policy cls method = true →
      load_outcome jvmti policy method
        (Some {| local_instance := (LoadLocalInstance jvmti cls method).1;
                 locals := [] |})
        (prologue jvmti policy cls method)
  | load_table_failed cls err table :
      GetMethodDeclaringClass jvmti method = (JVMTI_ERROR_NONE, cls) →
      denied policy cls method = false →
      GetLocalVariableTable jvmti method = (err, table) →
      err ≠ JVMTI_ERROR_NONE →
      err ≠ JVMTI_ERROR_ABSENT_INFORMATION →
      err ≠ JVMTI_ERROR_NATIVE_METHOD →
      load_outcome jvmti policy method None
        (prologue jvmti policy cls method
           ++ [jvmti_GetLocalVariableTable method err])
  | load_no_table cls err table :
      GetMethodDeclaringClass jvmti method = (JVMTI_ERROR_NONE, cls) →
      denied policy cls method = false →
      GetLocalVariableTable jvmti method = (err, table) →
      err = JVMTI_ERROR_ABSENT_INFORMATION ∨ err = JVMTI_ERROR_NATIVE_METHOD →
      load_outcome jvmti policy method
        (Some {| local_instance := (LoadLocalInstance jvmti cls method).1;
                 locals := [] |})
        (prologue jvmti policy cls method
           ++ [jvmti_GetLocalVariableTable method err])
  | load_empty_table cls :
      GetMethodDeclaringClass jvmti method = (JVMTI_ERROR_NONE, cls) →
      denied policy cls method = false →
      GetLocalVariableTable jvmti method = (JVMTI_ERROR_NONE, []) →
      load_outcome jvmti policy method
        (Some {| local_instance := (LoadLocalInstance jvmti cls method).1;
                 locals := [] |})
        (prologue jvmti policy cls method
           ++ [jvmti_GetLocalVariableTable method JVMTI_ERROR_NONE])
  | load_table cls table err arguments_size :
      GetMethodDeclaringClass jvmti method = (JVMTI_ERROR_NONE, cls) →
      denied policy cls method = false →
      GetLocalVariableTable jvmti method = (JVMTI_ERROR_NONE, table) →
      table ≠ [] →
      GetArgumentsSize jvmti method = (err, arguments_size) →
      load_outcome jvmti policy method
        (Some {| local_instance := (LoadLocalInstance jvmti cls method).1;
                 locals :=
                   classify
                     (if decide (err = JVMTI_ERROR_NONE)
                      then arguments_size else 0)
                   <$> table |})
        (prologue jvmti policy cls method
           ++ [jvmti_GetLocalVariableTable method JVMTI_ERROR_NONE;
               jvmti_GetArgumentsSize method err]).

(** The argument-slot count [LoadEntry] works with. *)
Definition arguments_size_or_zero (jvmti : jvmtiEnv) (method : jmethodID) : jint :=
  if decide ((GetArgumentsSize jvmti method).1 = JVMTI_ERROR_NONE)
  then (GetArgumentsSize jvmti method).2
  else 0.

(** ** The cache object and the memory it points into *)

(** [MethodLocals] together with the heap its shared pointers point into and
    the trace of what has been executed on it so far. *)
Record state := {
  local_variables_visibility_policy_ : option LocalVariablesVisibilityPolicy;
  method_vars_ : gmap N ptr;
  heap : list Entry;
  trace : list event;
}.

(** [MethodLocals::MethodLocals]. *)
Definition MethodLocals_new
    (local_variables_visibility_policy : option LocalVariablesVisibilityPolicy)
    : state :=
  {| local_variables_visibility_policy_ := local_variables_visibility_policy;
     method_vars_ := ∅;
     heap := [];
     trace := [] |}.

Definition emit (evs : list event) (s : state) : state :=
  {| local_variables_visibility_policy_ := local_variables_visibility_policy_ s;
     method_vars_ := method_vars_ s;
     heap := heap s;
     trace := trace s ++ evs |}.

Definition set_method_vars (vars : gmap N ptr) (s : state) : state :=
  {| local_variables_visibility_policy_ := local_variables_visibility_policy_ s;
     method_vars_ := vars;
     heap := heap s;
     trace := trace s |}.

(** [std::shared_ptr<Entry>(new Entry(e))]: the object gets the next unused
    address. *)
Definition make_shared (e : Entry) (s : state) : ptr * state :=
  let p := List.length (heap s) in
  (p,
   {| local_variables_visibility_policy_ := local_variables_visibility_policy_ s;
      method_vars_ := method_vars_ s;
      heap := heap s ++ [e];
      trace := trace s ++ [operator_new p] |}).

(** [MethodLocals::JvmtiOnCompiledMethodUnload]. *)
Definition JvmtiOnCompiledMethodUnload (method : jmethodID) (s : state) : state :=
  set_method_vars (delete method (method_vars_ s)) (emit [map_erase method] s).

(** Case 1 of [GetLocalVariables]: the scope of [reader_lock]. *)
Definition find_cached (method : jmethodID) (s : state) : option ptr * state :=
  let s := emit [MutexLock_acquire; map_find method] s in
  (method_vars_ s !! method, emit [MutexLock_release] s).

(** The call [LoadEntry(method)] as [GetLocalVariables] sees it: the entry
    under construction is private to [LoadEntry], so it is given its address
    when a non-null pointer to it is returned; a null pointer is [None]. The
    [Entry] that [LoadEntry] constructs at its start and drops again when it
    returns null never becomes visible and is not represented: the heap
    holds the entries that are handed out, it does not count allocations. *)
Definition call_LoadEntry_shared (jvmti : jvmtiEnv) (method : jmethodID)
    (s : state) : option ptr * state :=
  let '(r, calls) :=
    LoadEntry jvmti (local_variables_visibility_policy_ s) method in
  let s := emit (call_LoadEntry method :: calls) s in
  match r with
  | None => (None, s)
  | Some e => let '(p, s) := make_shared e s in (Some p, s)
  end.

(** The tail of case 2: the scope of [writer_lock]. [std::map::insert]
    leaves an existing mapping alone and yields the element that is in the
    map afterwards. *)
Definition insert_locals (method : jmethodID) (locals : ptr) (s : state)
    : ptr * state :=
  let s := emit [MutexLock_acquire; map_insert method] s in
  match method_vars_ s !! method with
  | Some winner => (winner, emit [MutexLock_release] s)
  | None =>
      (locals,
       emit [MutexLock_release]
         (set_method_vars (<[method := locals]> (method_vars_ s)) s))
  end.

(** Case 2 after [LoadEntry] has returned. *)
Definition publish (method : jmethodID) (locals : option ptr) (s : state)
    : ptr * state :=
  match locals with
  | None => make_shared new_Entry s  (* Failure *)
  | Some locals => insert_locals method locals s
  end.

(** [MethodLocals::GetLocalVariables]. *)
Definition GetLocalVariables (jvmti : jvmtiEnv) (method : jmethodID)
    (s : state) : ptr * state :=
  (* Case 1: the local variables table is cached for "method". *)
  match find_cached method s with
  | (Some it_method_vars, s) => (it_method_vars, s)
  | (None, s) =>
      (* Case 2: we need to obtain the local variables table. *)
      let '(locals, s) := call_LoadEntry_shared jvmti method s in
      publish method locals s
  end.

(** What was executed between [s] and a later state [s']. *)
Definition events_since (s s' : state) : list event :=
  drop (List.length (trace s)) (trace s').

(** One call of [GetLocalVariables method] after the other, the JVM
    answering the i-th call as [jvms !! i] does. *)
Definition GetLocalVariables_each (jvms : list jvmtiEnv) (method : jmethodID)
    (s : state) : state :=
  foldl (λ s jvmti, (GetLocalVariables jvmti method s).2) s jvms.

(** ** Threads inside [GetLocalVariables]

    A thread that runs [GetLocalVariables] touches the shared map in two
    separate lock scopes, with [LoadEntry] in between. A lock scope is one
    step, the mutex keeping the scopes of different threads apart; other
    threads can run between the three steps. *)

Inductive thread :=
  | Calling (method : jmethodID)
  | Loading (method : jmethodID)
  | Publishing (method : jmethodID) (locals : option ptr)
  | Returned (method : jmethodID) (result : ptr).

Definition thread_step (jvmti : jvmtiEnv) (t : thread) (s : state)
    : thread * state :=
  match t with
  | Calling method =>
      match find_cached method s with
      | (Some it_method_vars, s) => (Returned method it_method_vars, s)
      | (None, s) => (Loading method, s)
      end
  | Loading method =>
      let '(locals, s) := call_LoadEntry_shared jvmti method s in
      (Publishing method locals, s)
  | Publishing method locals =>
      let '(result, s) := publish method locals s in
      (Returned method result, s)
  | Returned _ _ => (t, s)
  end.

(** One scheduling decision: which thread runs its next step, and what the
    JVM answers should that step be the load. *)
Definition sys_step (sys : list thread * state) (next : nat * jvmtiEnv)
    : list thread * state :=
  match sys.1 !! next.1 with
  | None => sys
  | Some t =>
      let '(t', s') := thread_step next.2 t sys.2 in
      (<[next.1 := t']> sys.1, s')
  end.

Definition run (schedule : list (nat * jvmtiEnv)) (sys : list thread * state)
    : list thread * state :=
  foldl sys_step sys schedule.

(** Steps a thread still has to take before it returns. *)
Definition remaining (t : thread) : nat :=
  match t with
  | Calling _ => 3
  | Loading _ => 2
  | Publishing _ _ => 1
  | Returned _ _ => 0
  end.

Definition method_of (t : thread) : jmethodID :=
  match t with
  | Calling m | Loading m | Publishing m _ | Returned m _ => m
  end.

(** How often thread [i] is scheduled. *)
Definition scheduled (i : nat) (schedule : list (nat * jvmtiEnv)) : nat :=
  List.length (filter (λ next, next.1 = i) schedule).

(** What holds of a thread that works on [method] while every load of
    [method] succeeds with an entry that satisfies [P]: a candidate it is
    about to publish is such an entry, and a result it has returned is the
    pointer the map holds. *)
Definition thread_inv (P : Entry → Prop) (method : jmethodID) (s : state)
    (t : thread) : Prop :=
  method_of t = method ∧
  match t with
  | Calling _ | Loading _ => True
  | Publishing _ None => False
  | Publishing _ (Some locals) => ∃ entry, heap s !! locals = Some entry ∧ P entry
  | Returned _ result => method_vars_ s !! method = Some result
  end.

Definition cache_inv (P : Entry → Prop) (method : jmethodID) (s : state) : Prop :=
  ∀ p, method_vars_ s !! method = Some p →
       ∃ entry, heap s !! p = Some entry ∧ P entry.

(** [s'] is a later state than [s] in a run without unload events: the heap
    has grown at its end and the map has kept its mappings. *)
Definition grown (s s' : state) : Prop :=
  local_variables_visibility_policy_ s' = local_variables_visibility_policy_ s
  ∧ (∃ more, heap s' = heap s ++ more)
  ∧ (∀ m p, method_vars_ s !! m = Some p → method_vars_ s' !! m = Some p).

(** ** Lock discipline of a trace *)

Definition touches_map (ev : event) : bool :=
  match ev with
  | map_find _ | map_insert _ | map_erase _ => true
  | _ => false
  end.

Definition introspects (ev : event) : bool :=
  match ev with
  | call_LoadEntry _
  | jvmti_GetMethodDeclaringClass _ _
  | jvmti_GetMethodModifiers _ _
  | jvmti_GetClassSignature _ _
  | jvmti_GetLocalVariableTable _ _
  | jvmti_GetArgumentsSize _ _
  | policy_IsLocalVariablesDebuggerVisible _ _ _ => true
  | _ => false
  end.

(** [locked held evs]: starting with the mutex held or not, every access to
    the map happens with the mutex held, every introspection call with the
    mutex free, acquire and release alternate, and the mutex is free at the
    end. *)
Fixpoint locked (held : bool) (evs : list event) : bool :=
  match evs with
  | [] => negb held
  | MutexLock_acquire :: evs => negb held && locked true evs
  | MutexLock_release :: evs => held && locked false evs
  | ev :: evs =>
      (if touches_map ev then held
       else if introspects ev then negb held
       else true)
      && locked held evs
  end.

(** Every pointer stored in the map points to an allocated [Entry]. *)
Definition wf (s : state) : Prop :=
  ∀ method p, method_vars_ s !! method = Some p → (p < List.length (heap s))%nat.

(** ** Sample JVMs *)

Definition table_0123 : list jvmtiLocalVariableEntry :=
  [ {| start_location := 0; length := 10; name := "a"; signature := "I";
       generic_signature := None; slot := 0 |};
    {| start_location := 0; length := 10; name := "b"; signature := "J";
       generic_signature := None; slot := 1 |};
    {| start_location := 2; length := 8; name := "c"; signature := "I";
       generic_signature := None; slot := 2 |};
    {| start_location := 4; length := 6; name := "d"; signature := "I";
       generic_signature := None; slot := 3 |} ].

(** A JVM in which every query succeeds; methods are instance methods of
    class 1 with the table above and two argument slots. *)
Definition jvm_ok : jvmtiEnv :=
  {| GetMethodDeclaringClass := λ _, (JVMTI_ERROR_NONE, 1%N);
     GetMethodModifiers := λ _, (JVMTI_ERROR_NONE, 1);
     GetClassSignature := λ _, (JVMTI_ERROR_NONE, ("LFoo;", None));
     GetLocalVariableTable := λ _, (JVMTI_ERROR_NONE, table_0123);
     GetArgumentsSize := λ _, (JVMTI_ERROR_NONE, 2) |}.

Definition JVMTI_ERROR_INTERNAL : jvmtiError := 113.

(** The same JVM while [GetLocalVariableTable] is failing. *)
Definition jvm_table_failing : jvmtiEnv :=
  {| GetMethodDeclaringClass := GetMethodDeclaringClass jvm_ok;
     GetMethodModifiers := GetMethodModifiers jvm_ok;
     GetClassSignature := GetClassSignature jvm_ok;
     GetLocalVariableTable := λ _, (JVMTI_ERROR_INTERNAL, []);
     GetArgumentsSize := GetArgumentsSize jvm_ok |}.

(** The same JVM for a class compiled without debug information. *)
Definition jvm_no_debug_info : jvmtiEnv :=
  {| GetMethodDeclaringClass := GetMethodDeclaringClass jvm_ok;
     GetMethodModifiers := GetMethodModifiers jvm_ok;
     GetClassSignature := GetClassSignature jvm_ok;
     GetLocalVariableTable := λ _, (JVMTI_ERROR_ABSENT_INFORMATION, []);
     GetArgumentsSize := GetArgumentsSize jvm_ok |}.

(** The same JVM while [GetArgumentsSize] is failing. *)
Definition jvm_args_failing : jvmtiEnv :=
  {| GetMethodDeclaringClass := GetMethodDeclaringClass jvm_ok;
     GetMethodModifiers := GetMethodModifiers jvm_ok;
     GetClassSignature := GetClassSignature jvm_ok;
     GetLocalVariableTable := GetLocalVariableTable jvm_ok;
     GetArgumentsSize := λ _, (JVMTI_ERROR_INTERNAL, 0) |}.

(** The same JVM while [GetMethodModifiers] is failing. *)
Definition jvm_modifiers_failing : jvmtiEnv :=
  {| GetMethodDeclaringClass := GetMethodDeclaringClass jvm_ok;
     GetMethodModifiers := λ _, (JVMTI_ERROR_INTERNAL, 0);
     GetClassSignature := GetClassSignature jvm_ok;
     GetLocalVariableTable := GetLocalVariableTable jvm_ok;
     GetArgumentsSize := GetArgumentsSize jvm_ok |}.

(** A policy that hides the locals of every method. *)
Definition deny_all : jclass → jmethodID → bool := λ _ _, false.

(** Two threads on a cold cache: both miss, both load (the second one sees
    a class without debug information), the second publishes first. *)
Definition race_schedule : list (nat * jvmtiEnv) :=
  [ (0%nat, jvm_ok); (1%nat, jvm_no_debug_info);
    (0%nat, jvm_ok); (1%nat, jvm_no_debug_info);
    (1%nat, jvm_no_debug_info); (0%nat, jvm_ok) ].

(** ** Histories of requests

    What the agent asks of the cache, one request after the other: a lookup,
    with the JVM as it answers at that time, or an unload event. *)

Inductive request :=
  | Get (jvmti : jvmtiEnv) (method : jmethodID)
  | Unload (method : jmethodID).

Definition serve (s : state) (r : request) : state :=
  match r with
  | Get jvmti method => (GetLocalVariables jvmti method s).2
  | Unload method => JvmtiOnCompiledMethodUnload method s
  end.

Definition serve_all (history : list request) (s : state) : state :=
  foldl serve s history.

Definition is_Get (r : request) : bool :=
  match r with Get _ _ => true | Unload _ => false end.

Definition is_Unload_of (method : jmethodID) (r : request) : bool :=
  match r with
  | Get _ _ => false
  | Unload m => bool_decide (m = method)
  end.

(** What holds of a thread, whatever handle it works on and whether or not
    the loads succeed, when [P method entry] says that a load for [method]
    produced [entry]: a candidate is such an entry, and a result is the
    pointer the map holds or points to an empty entry. *)
Definition thread_safe (P : jmethodID → Entry → Prop) (s : state) (t : thread)
    : Prop :=
  match t with
  | Calling _ | Loading _ | Publishing _ None => True
  | Publishing method (Some locals) =>
      ∃ entry, heap s !! locals = Some entry ∧ P method entry
  | Returned method result =>
      method_vars_ s !! method = Some result
      ∨ heap s !! result = Some new_Entry
  end.

Definition cache_safe (P : jmethodID → Entry → Prop) (s : state) : Prop :=
  ∀ method p, method_vars_ s !! method = Some p →
              ∃ entry, heap s !! p = Some entry ∧ P method entry.

(** A JVM that answers as [jvmti] does, except that the modifiers it reports
    are [method_modifiers]. *)
Definition with_modifiers (method_modifiers : jint) (jvmti : jvmtiEnv) : jvmtiEnv :=
  {| GetMethodDeclaringClass := GetMethodDeclaringClass jvmti;
     GetMethodModifiers := λ method,
       ((GetMethodModifiers jvmti method).1, method_modifiers);
     GetClassSignature := GetClassSignature jvmti;
     GetLocalVariableTable := GetLocalVariableTable jvmti;
     GetArgumentsSize := GetArgumentsSize jvmti |}.

End MethodLocals.

(** * The orchestrator *)

Module Debugger.

Section Debugger.
(** The collaborators whose code is outside the sources at hand. Each
    handles the unload event on its own state; the breakpoints manager,
    which reaches the class indexer through the evaluators it was built
    with, may read it during its cleanup. *)
Context {EvalCallStack JvmBreakpointsManager ClassIndexer : Type}.
Variable EvalCallStack_JvmtiOnCompiledMethodUnload :
  jmethodID → EvalCallStack → EvalCallStack.
Variable JvmBreakpointsManager_JvmtiOnCompiledMethodUnload :
  jmethodID → JvmBreakpointsManager → JvmBreakpointsManager.
Variable JvmBreakpointsManager_Cleanup :
  ClassIndexer → JvmBreakpointsManager → JvmBreakpointsManager.
Variable ClassIndexer_Cleanup : ClassIndexer → ClassIndexer.

(** Calls the orchestrator makes on its members, as a test double would
    record them. *)
Inductive member_call :=
  | eval_call_stack_JvmtiOnCompiledMethodUnload (method : jmethodID)
  | method_locals_JvmtiOnCompiledMethodUnload (method : jmethodID)
  | breakpoints_manager_JvmtiOnCompiledMethodUnload (method : jmethodID)
  | breakpoints_manager_Cleanup
  | class_indexer_Cleanup.

Record Debugger := {
  eval_call_stack_ : EvalCallStack;
  method_locals_ : MethodLocals.state;
  class_indexer_ : ClassIndexer;
  breakpoints_manager_ : JvmBreakpointsManager;
  calls : list member_call;
}.

(** [Debugger::~Debugger]. *)
Definition destroy (d : Debugger) : Debugger :=
  let d :=
    {| eval_call_stack_ := eval_call_stack_ d;
       method_locals_ := method_locals_ d;
       class_indexer_ := class_indexer_ d;
       breakpoints_manager_ :=
         JvmBreakpointsManager_Cleanup (class_indexer_ d) (breakpoints_manager_ d);
       calls := calls d ++ [breakpoints_manager_Cleanup] |} in
  {| eval_call_stack_ := eval_call_stack_ d;
     method_locals_ := method_locals_ d;
     class_indexer_ := ClassIndexer_Cleanup (class_indexer_ d);
     breakpoints_manager_ := breakpoints_manager_ d;
     calls := calls d ++ [class_indexer_Cleanup] |}.

(** [Debugger::JvmtiOnCompiledMethodUnload]; [code_addr] is not used. *)
Definition JvmtiOnCompiledMethodUnload (method : jmethodID) (d : Debugger)
    : Debugger :=
  let d :=
    {| eval_call_stack_ :=
         EvalCallStack_JvmtiOnCompiledMethodUnload method (eval_call_stack_ d);
       method_locals_ := method_locals_ d;
       class_indexer_ := class_indexer_ d;
       breakpoints_manager_ := breakpoints_manager_ d;
       calls := calls d ++ [eval_call_stack_JvmtiOnCompiledMethodUnload method] |} in
  let d :=
    {| eval_call_stack_ := eval_call_stack_ d;
       method_locals_ :=
         MethodLocals.JvmtiOnCompiledMethodUnload method (method_locals_ d);
       class_indexer_ := class_indexer_ d;
       breakpoints_manager_ := breakpoints_manager_ d;
       calls := calls d ++ [method_locals_JvmtiOnCompiledMethodUnload method] |} in
  {| eval_call_stack_ := eval_call_stack_ d;
     method_locals_ := method_locals_ d;
     class_indexer_ := class_indexer_ d;
     breakpoints_manager_ :=
       JvmBreakpointsManager_JvmtiOnCompiledMethodUnload method
         (breakpoints_manager_ d);
     calls := calls d ++ [breakpoints_manager_JvmtiOnCompiledMethodUnload method] |}.

(** The unload events of [methods], delivered one after the other. *)
Definition JvmtiOnCompiledMethodUnload_each (methods : list jmethodID)
    (d : Debugger) : Debugger :=
  foldl (λ d method, JvmtiOnCompiledMethodUnload method d) d methods.

End Debugger.

(** An orchestrator over collaborators without state, for examples. *)
Definition sample : @Debugger unit unit unit :=
  {| eval_call_stack_ := tt;
     method_locals_ := MethodLocals.MethodLocals_new None;
     class_indexer_ := tt;
     breakpoints_manager_ := tt;
     calls := [] |}.

End Debugger.

(** * Facts about the load algorithm *)

Import MethodLocals.

Set Warnings "-clear-no-such-hyp".

(** Join hypotheses that give the result of the same query. *)
Ltac same_lhs :=
  repeat match goal with
  | H1 : ?x = _, H2 : ?x = _ |- _ => rewrite H1 in H2; simplify_eq
  end.

Section LoadFacts.
Context (jvmti : jvmtiEnv) (policy : option LocalVariablesVisibilityPolicy).

Lemma LoadLocalInstance_outcome cls method :
  instance_outcome jvmti cls method
    (LoadLocalInstance jvmti cls method).1 (LoadLocalInstance jvmti cls method).2.
Proof.
  unfold LoadLocalInstance, mbind, Traced_bind, mret, Traced_ret, performed.
  destruct (GetMethodModifiers jvmti method) as [err mods] eqn:Hmods; simpl.
  destruct (decide (err ≠ JVMTI_ERROR_NONE)) as [Herr|Herr]; simpl.
  { by eapply instance_modifiers_failed. }
  apply dec_stable in Herr; subst err.
  destruct (decide (Z.land mods JVM_ACC_STATIC ≠ 0)) as [Hst|Hst]; simpl.
  { by eapply instance_static. }
  apply dec_stable in Hst.
  destruct (GetClassSignature jvmti cls) as [err [sig gen]] eqn:Hsig; simpl.
  destruct (decide (err ≠ JVMTI_ERROR_NONE)) as [Herr|Herr]; simpl.
  { by eapply instance_signature_failed. }
  apply dec_stable in Herr; subst err.
  by eapply instance_this.
Qed.

(** Bring an instance of a [load_outcome] constructor into the shape the
    unfolded function has. *)
Ltac by_outcome c :=
  let Hc := fresh "Hc" in
  pose proof c as Hc;
  unfold prologue, policy_calls, denied in Hc; simpl in Hc;
  repeat match goal with
  | H : LoadLocalInstance _ _ _ = _ |- _ => rewrite H in Hc
  | H : _ _ _ = true |- _ => rewrite H in Hc
  | H : _ _ _ = false |- _ => rewrite H in Hc
  end;
  simpl in Hc; rewrite <- ?app_assoc in Hc; simpl in Hc;
  rewrite ?app_nil_r; simpl;
  eauto.

Lemma LoadEntry_outcome method :
  load_outcome jvmti policy method
    (LoadEntry jvmti policy method).1 (LoadEntry jvmti policy method).2.
Proof.
  unfold LoadEntry, mbind, Traced_bind, mret, Traced_ret, performed.
  destruct (GetMethodDeclaringClass jvmti method) as [err cls] eqn:Hcls; simpl.
  destruct (decide (err ≠ JVMTI_ERROR_NONE)) as [Herr|Herr]; simpl.
  { by eapply load_class_failed. }
  apply dec_stable in Herr; subst err.
  destruct (LoadLocalInstance jvmti cls method) as [inst icalls] eqn:Hinst.
  destruct (GetLocalVariableTable jvmti method) as [err table] eqn:Htable.
  destruct (GetArgumentsSize jvmti method) as [aerr n] eqn:Hargs.
  assert (Hrest : ∀ policy',
    denied policy' cls method = false →
    load_outcome jvmti policy' method
      (if decide (err ≠ JVMTI_ERROR_NONE ∧
                  err ≠ JVMTI_ERROR_ABSENT_INFORMATION ∧
                  err ≠ JVMTI_ERROR_NATIVE_METHOD)
       then None
       else if decide (err ≠ JVMTI_ERROR_NONE)
       then Some {| local_instance := inst; locals := [] |}
       else Some {| local_instance := inst;
                    locals := classify
                      (if decide (Z.of_nat (List.length table) > 0)
                       then if decide (aerr ≠ JVMTI_ERROR_NONE) then 0 else n
                       else 0) <$> table |})
      (jvmti_GetMethodDeclaringClass method JVMTI_ERROR_NONE
         :: icalls ++ policy_calls policy' cls method
         ++ jvmti_GetLocalVariableTable method err
         :: (if decide (err ≠ JVMTI_ERROR_NONE) then []
             else if decide (Z.of_nat (List.length table) > 0)
             then [jvmti_GetArgumentsSize method aerr] else []))).
  { intros policy' Hd.
    destruct (decide (_ ∧ _)) as [(?&?&?)|Hfatal].
    { rewrite decide_True by done.
      by_outcome (load_table_failed jvmti policy' method cls err table). }
    destruct (decide (err ≠ JVMTI_ERROR_NONE)) as [Herr|Herr].
    { assert (err = JVMTI_ERROR_ABSENT_INFORMATION ∨
              err = JVMTI_ERROR_NATIVE_METHOD).
      { destruct (decide (err = JVMTI_ERROR_ABSENT_INFORMATION)); [by left|].
        destruct (decide (err = JVMTI_ERROR_NATIVE_METHOD)); [by right|].
        by destruct Hfatal. }
      by_outcome (load_no_table jvmti policy' method cls err table). }
    apply dec_stable in Herr; subst err.
    destruct table as [|v table].
    { simpl. by_outcome (load_empty_table jvmti policy' method cls). }
    rewrite decide_True by (simpl; lia).
    pose proof (load_table jvmti policy' method cls (v :: table) aerr n
                  Hcls Hd Htable) as Hc.
    unfold prologue in Hc. rewrite Hinst in Hc. simpl in Hc.
    rewrite <- app_assoc in Hc.
    replace (if decide (aerr ≠ JVMTI_ERROR_NONE) then 0 else n)
      with (if decide (aerr = JVMTI_ERROR_NONE) then n else 0)
      by (by repeat case_decide).
    by apply Hc. }
  destruct policy as [pol|]; simpl.
  - destruct (pol cls method) eqn:Hpol; simpl.
    + specialize (Hrest (Some pol)). simpl in Hrest. rewrite Hpol in Hrest.
      specialize (Hrest eq_refl).
      repeat case_decide; simpl in *; rewrite ?app_nil_r; try done; tauto.
    + by_outcome (load_denied jvmti (Some pol) method cls Hcls).
  - specialize (Hrest None eq_refl). simpl in Hrest.
    repeat case_decide; simpl in *; rewrite ?app_nil_r; try done; tauto.
Qed.
End LoadFacts.

Section LoadClaims.
Context (jvmti : jvmtiEnv) (policy : option LocalVariablesVisibilityPolicy).

Lemma LoadLocalInstance_calls cls method ev :
  ev ∈ (LoadLocalInstance jvmti cls method).2 →
  (∃ err, ev = jvmti_GetMethodModifiers method err) ∨
  (∃ err, ev = jvmti_GetClassSignature cls err).
Proof.
  destruct (LoadLocalInstance_outcome jvmti cls method); set_solver.
Qed.

Lemma prologue_calls cls method ev :
  ev ∈ prologue jvmti policy cls method →
  ev = jvmti_GetMethodDeclaringClass method JVMTI_ERROR_NONE ∨
  (∃ err, ev = jvmti_GetMethodModifiers method err) ∨
  (∃ err, ev = jvmti_GetClassSignature cls err) ∨
  (∃ visible, ev = policy_IsLocalVariablesDebuggerVisible cls method visible).
Proof.
  unfold prologue, policy_calls.
  rewrite elem_of_cons, elem_of_app.
  intros [->|[Hev|Hev]]; [by left|..].
  - apply LoadLocalInstance_calls in Hev. naive_solver.
  - destruct policy; set_solver.
Qed.

Ltac in_calls Hin :=
  repeat (apply elem_of_app in Hin as [Hin|Hin]);
  try apply prologue_calls in Hin.

(** Every event of a load is an introspection call. *)
Lemma LoadEntry_introspects method :
  Forall (λ ev, introspects ev = true) (LoadEntry jvmti policy method).2.
Proof.
  apply Forall_forall. intros ev Hev.
  destruct (LoadEntry_outcome jvmti policy method).
  all: repeat (apply elem_of_app in Hev as [Hev|Hev]).
  all: try apply prologue_calls in Hev.
  all: set_solver.
Qed.

(** What a load returns, read off the answers of the JVM and of the
    policy. *)
Lemma LoadEntry_result method :
  (LoadEntry jvmti policy method).1 =
    let cls := (GetMethodDeclaringClass jvmti method).2 in
    let instance := (LoadLocalInstance jvmti cls method).1 in
    let table_err := (GetLocalVariableTable jvmti method).1 in
    if decide ((GetMethodDeclaringClass jvmti method).1 ≠ JVMTI_ERROR_NONE)
    then None
    else if denied policy cls method
    then Some {| local_instance := instance; locals := [] |}
    else if decide (table_err ≠ JVMTI_ERROR_NONE ∧
                    table_err ≠ JVMTI_ERROR_ABSENT_INFORMATION ∧
                    table_err ≠ JVMTI_ERROR_NATIVE_METHOD)
    then None
    else if decide (table_err ≠ JVMTI_ERROR_NONE)
    then Some {| local_instance := instance; locals := [] |}
    else Some {| local_instance := instance;
                 locals := classify (arguments_size_or_zero jvmti method)
                           <$> (GetLocalVariableTable jvmti method).2 |}.
Proof.
  unfold arguments_size_or_zero.
  destruct (LoadEntry_outcome jvmti policy method) as
    [? ? Hcls ?|? Hcls Hd|? ? ? Hcls Hd Htable ? ? ?|? ? ? Hcls Hd Htable Herr
    |? Hcls Hd Htable|? ? ? ? Hcls Hd Htable ? Hargs];
    rewrite Hcls; try rewrite Htable; try rewrite Hargs; cbn [fst snd];
    try rewrite Hd.
  all: repeat case_decide; try done; try tauto.
  all: by destruct Herr; subst.
Qed.

(** C3. The load always asks the JVM for the declaring class, and asks for
    the local-variable table exactly when the class resolved and the policy
    did not deny; the errors recorded are the ones the JVM gave. It produces
    no entry exactly when the declaring-class lookup failed, or the
    local-variable-table lookup, being made, failed with an error other than
    "absent information" and "native method"; when it reports one of these
    two errors the load yields an entry with the resolved instance
    descriptor and no local variables. *)
Theorem C3_load_fails_iff_transient method :
  let cls := (GetMethodDeclaringClass jvmti method).2 in
  let class_err := (GetMethodDeclaringClass jvmti method).1 in
  let table_err := (GetLocalVariableTable jvmti method).1 in
  let r := (LoadEntry jvmti policy method).1 in
  let calls := (LoadEntry jvmti policy method).2 in
  (∀ err, jvmti_GetMethodDeclaringClass method err ∈ calls ↔ err = class_err)
  ∧ (∀ err, jvmti_GetLocalVariableTable method err ∈ calls ↔
            class_err = JVMTI_ERROR_NONE ∧
            denied policy cls method = false ∧
            err = table_err)
  ∧ (r = None ↔
       class_err ≠ JVMTI_ERROR_NONE
       ∨ (class_err = JVMTI_ERROR_NONE ∧
          denied policy cls method = false ∧
          table_err ≠ JVMTI_ERROR_NONE ∧
          table_err ≠ JVMTI_ERROR_ABSENT_INFORMATION ∧
          table_err ≠ JVMTI_ERROR_NATIVE_METHOD))
  ∧ (class_err = JVMTI_ERROR_NONE →
     denied policy cls method = false →
     table_err = JVMTI_ERROR_ABSENT_INFORMATION ∨
     table_err = JVMTI_ERROR_NATIVE_METHOD →
     r = Some {| local_instance := (LoadLocalInstance jvmti cls method).1;
                 locals := [] |}).
Proof.
  cbn zeta. split; [|split; [|split]].
  - (* the declaring-class lookup is made, once, with the JVM's answer *)
    intros e.
    destruct (LoadEntry_outcome jvmti policy method) as
      [? ? Hcls ?|? Hcls Hd|? ? ? Hcls Hd Htable ? ? ?|? ? ? Hcls Hd Htable Herr
      |? Hcls Hd Htable|? ? ? ? Hcls Hd Htable ? Hargs];
      rewrite Hcls; cbn [fst snd].
    all: split; [intros Hin; in_calls Hin; set_solver|intros ->].
    all: unfold prologue; set_solver.
  - (* the table lookup is made when the class resolved and nothing denies *)
    intros e.
    destruct (LoadEntry_outcome jvmti policy method) as
      [? ? Hcls ?|? Hcls Hd|? ? ? Hcls Hd Htable ? ? ?|? ? ? Hcls Hd Htable Herr
      |? Hcls Hd Htable|? ? ? ? Hcls Hd Htable ? Hargs];
      rewrite Hcls; try rewrite Htable; cbn [fst snd].
    all: split; [intros Hin; in_calls Hin; try set_solver
                |intros (? & ? & ->); try congruence].
    all: set_solver.
  - (* no entry *)
    rewrite LoadEntry_result. cbn zeta.
    repeat case_decide; try destruct (denied _ _ _); naive_solver.
  - (* the two errors that are cached *)
    intros Hclass Hd Herr.
    rewrite LoadEntry_result. cbn zeta.
    rewrite decide_False by (intros Hne; by apply Hne). rewrite Hd.
    rewrite decide_False by (destruct Herr as [-> | ->]; by intros (? & ? & ?)).
    rewrite decide_True; [done|].
    destruct Herr as [-> | ->]; done.
Qed.

(** The entry a load produces carries the instance descriptor that
    [LoadLocalInstance] resolved for the declaring class. *)
Lemma LoadEntry_local_instance method entry :
  (LoadEntry jvmti policy method).1 = Some entry →
  local_instance entry =
    (LoadLocalInstance jvmti (GetMethodDeclaringClass jvmti method).2 method).1.
Proof.
  destruct (LoadEntry_outcome jvmti policy method) as
    [? ? Hcls|? Hcls|? ? ? Hcls|? ? ? Hcls|? Hcls|? ? ? ? Hcls];
    intros; simplify_eq; by rewrite Hcls.
Qed.

(** Whether a load succeeds, and with which variables, is decided by the
    declaring-class, variable-table and argument-size queries alone. *)
Lemma LoadEntry_locals_independent jvmti' method :
  GetMethodDeclaringClass jvmti' method = GetMethodDeclaringClass jvmti method →
  GetLocalVariableTable jvmti' method = GetLocalVariableTable jvmti method →
  GetArgumentsSize jvmti' method = GetArgumentsSize jvmti method →
  locals <$> (LoadEntry jvmti' policy method).1 =
  locals <$> (LoadEntry jvmti policy method).1.
Proof.
  intros Hcls Htable Hargs.
  destruct (LoadEntry_outcome jvmti policy method);
    destruct (LoadEntry_outcome jvmti' policy method);
    repeat match goal with
    | H : _ jvmti' method = _ |- _ =>
        first [rewrite Hcls in H | rewrite Htable in H | rewrite Hargs in H]
    end;
    repeat match goal with
    | H1 : ?x = _, H2 : ?x = _ |- _ => rewrite H1 in H2
    end;
    simplify_eq; try done; try tauto.
  all: try congruence.
  all: by match goal with H : _ ∨ _ |- _ => destruct H end.
Qed.

(** C5. A method whose modifiers carry the static flag gets no instance
    descriptor. A non-static method whose modifiers and class signature
    resolve gets the descriptor named "this", slot 0, valid from location 0
    with length -1 (everywhere), marked as an argument. A failure of either
    query gives no descriptor, and it does not abort the load: once the
    declaring class is resolved, and unless the variable-table lookup fails
    for good, the load produces an entry, and that entry carries whatever
    [LoadLocalInstance] resolved, the descriptor or none; whether the load
    succeeds and with which variables does not depend on these two
    queries. *)
Theorem C5_instance_descriptor cls method :
  let instance := (LoadLocalInstance jvmti cls method).1 in
  (Z.land (GetMethodModifiers jvmti method).2 JVM_ACC_STATIC ≠ 0 →
   instance = None)
  ∧ (∀ class_signature class_generic,
       (GetMethodModifiers jvmti method).1 = JVMTI_ERROR_NONE →
       Z.land (GetMethodModifiers jvmti method).2 JVM_ACC_STATIC = 0 →
       GetClassSignature jvmti cls =
         (JVMTI_ERROR_NONE, (class_signature, class_generic)) →
       instance =
         Some (JvmLocalVariableReader
                 {| start_location := 0;
                    length := -1;
                    name := "this";
                    signature := class_signature;
                    generic_signature := class_generic;
                    slot := 0 |}
                 true))
  ∧ ((GetMethodModifiers jvmti method).1 ≠ JVMTI_ERROR_NONE ∨
     (GetClassSignature jvmti cls).1 ≠ JVMTI_ERROR_NONE →
     instance = None)
  ∧ (GetMethodDeclaringClass jvmti method = (JVMTI_ERROR_NONE, cls) →
     denied policy cls method = true
     ∨ (GetLocalVariableTable jvmti method).1 = JVMTI_ERROR_NONE
     ∨ (GetLocalVariableTable jvmti method).1 = JVMTI_ERROR_ABSENT_INFORMATION
     ∨ (GetLocalVariableTable jvmti method).1 = JVMTI_ERROR_NATIVE_METHOD →
     ∃ entry,
       (LoadEntry jvmti policy method).1 = Some entry
       ∧ local_instance entry = instance)
  ∧ (∀ entry,
       (LoadEntry jvmti policy method).1 = Some entry →
       GetMethodDeclaringClass jvmti method = (JVMTI_ERROR_NONE, cls) →
       local_instance entry = instance)
  ∧ (∀ jvmti',
       GetMethodDeclaringClass jvmti' method =
         GetMethodDeclaringClass jvmti method →
       GetLocalVariableTable jvmti' method =
         GetLocalVariableTable jvmti method →
       GetArgumentsSize jvmti' method = GetArgumentsSize jvmti method →
       locals <$> (LoadEntry jvmti' policy method).1 =
       locals <$> (LoadEntry jvmti policy method).1).
Proof.
  cbn zeta. split; [|split; [|split; [|split; [|split]]]].
  - destruct (LoadLocalInstance_outcome jvmti cls method) as
      [| |? ? ? Hm|? ? ? Hm]; try done; rewrite Hm; simpl; by intros.
  - intros sig gen.
    destruct (LoadLocalInstance_outcome jvmti cls method) as
      [? ? Hm|? Hm|? ? ? Hm ? Hs|? ? ? Hm ? Hs]; rewrite Hm; simpl;
      intros; simplify_eq; first [done | congruence].
  - destruct (LoadLocalInstance_outcome jvmti cls method) as
      [| |? ? ? Hm|? ? ? Hm ? Hs]; try done.
    rewrite Hm, Hs. simpl. tauto.
  - intros Hcls Hgoes_on.
    rewrite LoadEntry_result, Hcls. cbn [fst snd]. cbn zeta.
    rewrite decide_False by (intros Hne; by apply Hne).
    destruct (denied policy cls method); [by eexists|].
    destruct Hgoes_on as [?|Htable]; [done|].
    rewrite decide_False by (intros (? & ? & ?); by destruct Htable as [?|[?|?]]).
    case_decide; by eexists.
  - intros entry Hentry Hcls.
    rewrite (LoadEntry_local_instance method entry Hentry). by rewrite Hcls.
  - intros jvmti'. apply LoadEntry_locals_independent.
Qed.

(** C6. When the variable table was fetched, the entry lists one descriptor
    per raw table entry, in table order; a descriptor is an argument exactly
    when its slot is below the argument-slot count, which is zero when
    [GetArgumentsSize] fails; the load succeeds all the same, and every
    variable (slots being non-negative) is then a local. *)
Theorem C6_arguments_and_locals cls method table :
  GetMethodDeclaringClass jvmti method = (JVMTI_ERROR_NONE, cls) →
  denied policy cls method = false →
  GetLocalVariableTable jvmti method = (JVMTI_ERROR_NONE, table) →
  ∃ entry,
    (LoadEntry jvmti policy method).1 = Some entry
    ∧ variable <$> locals entry = table
    ∧ (∀ i reader,
         locals entry !! i = Some reader →
         (is_argument reader = true ↔
          slot (variable reader) < arguments_size_or_zero jvmti method))
    ∧ ((GetArgumentsSize jvmti method).1 ≠ JVMTI_ERROR_NONE →
       Forall (λ v, 0 ≤ slot v) table →
       Forall (λ reader, is_argument reader = false) (locals entry)).
Proof.
  intros Hcls Hdenied Htable.
  destruct (LoadEntry_outcome jvmti policy method); same_lhs;
    try congruence; try tauto.
  - by match goal with H : _ ∨ _ |- _ => destruct H end.
  - eexists; split; [done|]. simpl. repeat split; try done.
  - eexists; split; [done|]. simpl.
    unfold arguments_size_or_zero.
    match goal with H : GetArgumentsSize _ _ = _ |- _ => rewrite H end.
    simpl. split; [|split].
    + rewrite <- list_fmap_compose. by apply list_fmap_id.
    + intros i reader (v & -> & _)%list_lookup_fmap_Some_1. simpl.
      apply Z.ltb_lt.
    + intros Herr Hslots. rewrite decide_False by done.
      apply Forall_fmap. eapply Forall_impl; [done|].
      intros v Hv. simpl. by apply Z.ltb_ge.
Qed.
End LoadClaims.

(** * Facts about the cache *)

Section CacheFacts.
Implicit Types (s : state) (method : jmethodID) (p : ptr) (jvmti : jvmtiEnv).

Lemma events_since_app s s' evs :
  trace s' = trace s ++ evs → events_since s s' = evs.
Proof. unfold events_since. intros ->. apply drop_app_length. Qed.

(** The three ways through [GetLocalVariables]. *)
Lemma GetLocalVariables_cached jvmti method s p :
  method_vars_ s !! method = Some p →
  GetLocalVariables jvmti method s =
    (p, emit [MutexLock_acquire; map_find method; MutexLock_release] s).
Proof.
  intros Hp. unfold GetLocalVariables, find_cached, emit. simpl.
  rewrite Hp. by rewrite <- app_assoc.
Qed.

Lemma GetLocalVariables_failed jvmti method s :
  method_vars_ s !! method = None →
  (LoadEntry jvmti (local_variables_visibility_policy_ s) method).1 = None →
  GetLocalVariables jvmti method s =
    (List.length (heap s),
     {| local_variables_visibility_policy_ :=
          local_variables_visibility_policy_ s;
        method_vars_ := method_vars_ s;
        heap := heap s ++ [new_Entry];
        trace :=
          trace s
            ++ [MutexLock_acquire; map_find method; MutexLock_release]
            ++ call_LoadEntry method
               :: (LoadEntry jvmti
                     (local_variables_visibility_policy_ s) method).2
            ++ [operator_new (List.length (heap s))] |}).
Proof.
  intros Hmiss Hload.
  unfold GetLocalVariables, find_cached, call_LoadEntry_shared, publish,
    make_shared, emit.
  simpl. rewrite Hmiss.
  destruct (LoadEntry _ _ _) as [r calls]. simpl in *. subst r. simpl.
  by rewrite <- !app_assoc.
Qed.

Lemma GetLocalVariables_loaded jvmti method s entry :
  method_vars_ s !! method = None →
  (LoadEntry jvmti (local_variables_visibility_policy_ s) method).1
    = Some entry →
  GetLocalVariables jvmti method s =
    (List.length (heap s),
     {| local_variables_visibility_policy_ :=
          local_variables_visibility_policy_ s;
        method_vars_ := <[method := List.length (heap s)]> (method_vars_ s);
        heap := heap s ++ [entry];
        trace :=
          trace s
            ++ [MutexLock_acquire; map_find method; MutexLock_release]
            ++ call_LoadEntry method
               :: (LoadEntry jvmti
                     (local_variables_visibility_policy_ s) method).2
            ++ [operator_new (List.length (heap s));
                MutexLock_acquire; map_insert method; MutexLock_release] |}).
Proof.
  intros Hmiss Hload.
  unfold GetLocalVariables, find_cached, call_LoadEntry_shared, publish,
    insert_locals, make_shared, emit.
  simpl. rewrite Hmiss.
  destruct (LoadEntry _ _ _) as [r calls]. simpl in *. subst r. simpl.
  rewrite Hmiss. simpl. by rewrite <- !app_assoc.
Qed.

Lemma GetLocalVariables_policy jvmti method s :
  local_variables_visibility_policy_ (GetLocalVariables jvmti method s).2 =
  local_variables_visibility_policy_ s.
Proof.
  destruct (method_vars_ s !! method) as [p|] eqn:Hp.
  { by rewrite (GetLocalVariables_cached _ _ _ p). }
  destruct (LoadEntry jvmti (local_variables_visibility_policy_ s) method).1
    as [entry|] eqn:Hload.
  - by rewrite (GetLocalVariables_loaded _ _ _ entry).
  - by rewrite GetLocalVariables_failed.
Qed.

(** A call that finds nothing cached runs the load. *)
Lemma GetLocalVariables_miss_loads jvmti method s :
  method_vars_ s !! method = None →
  call_LoadEntry method
    ∈ events_since s (GetLocalVariables jvmti method s).2.
Proof.
  intros Hmiss.
  destruct (LoadEntry jvmti (local_variables_visibility_policy_ s) method).1
    as [entry|] eqn:Hload.
  - rewrite (GetLocalVariables_loaded _ _ _ entry) by done. simpl.
    erewrite events_since_app; [|done]. set_solver.
  - rewrite GetLocalVariables_failed by done. simpl.
    erewrite events_since_app; [|done]. set_solver.
Qed.

(** A call that finds the entry cached returns it and loads nothing. *)
Lemma GetLocalVariables_hit_no_load jvmti method s p :
  method_vars_ s !! method = Some p →
  (GetLocalVariables jvmti method s).1 = p ∧
  method_vars_ (GetLocalVariables jvmti method s).2 = method_vars_ s ∧
  heap (GetLocalVariables jvmti method s).2 = heap s ∧
  call_LoadEntry method
    ∉ events_since s (GetLocalVariables jvmti method s).2.
Proof.
  intros Hp. rewrite (GetLocalVariables_cached _ _ _ p) by done. simpl.
  repeat split; try done.
  erewrite events_since_app; [|done]. set_solver.
Qed.

Lemma GetLocalVariables_wf jvmti method s :
  wf s → wf (GetLocalVariables jvmti method s).2.
Proof.
  intros Hwf.
  destruct (method_vars_ s !! method) as [p|] eqn:Hp.
  { by rewrite (GetLocalVariables_cached _ _ _ p). }
  destruct (LoadEntry jvmti (local_variables_visibility_policy_ s) method).1
    as [entry|] eqn:Hload.
  - rewrite (GetLocalVariables_loaded _ _ _ entry) by done.
    intros m q. simpl. rewrite length_app. simpl.
    destruct (decide (method = m)) as [->|Hne].
    + rewrite lookup_insert_eq. intros [= <-]. lia.
    + rewrite lookup_insert_ne by done. intros ?%Hwf. lia.
  - rewrite GetLocalVariables_failed by done.
    intros m q. simpl. rewrite length_app. simpl. intros ?%Hwf. lia.
Qed.

End CacheFacts.

Section CacheClaims.
Implicit Types (s : state) (method : jmethodID) (p : ptr) (jvmti : jvmtiEnv).

Lemma failing_calls_leave_cache failing method s :
  method_vars_ s !! method = None →
  Forall (λ jvmti,
            (LoadEntry jvmti (local_variables_visibility_policy_ s) method).1
            = None) failing →
  method_vars_ (GetLocalVariables_each failing method s) = method_vars_ s ∧
  local_variables_visibility_policy_ (GetLocalVariables_each failing method s)
    = local_variables_visibility_policy_ s.
Proof.
  intros Hmiss Hfailing. revert s Hmiss Hfailing.
  induction failing as [|jvmti failing IH]; intros s Hmiss Hfailing; [done|].
  apply Forall_cons in Hfailing as [Hload Hfailing].
  unfold GetLocalVariables_each in *. simpl.
  rewrite GetLocalVariables_failed by done.
  apply (IH {| heap := heap s ++ [new_Entry] |}); done.
Qed.

(** C1. When the handle is not cached and the load fails, the call returns
    an entry that was not allocated before, is empty, and is not in the
    map, which is left as it was; the next call for the handle runs the load
    again; and after any number of failing calls followed by a call whose
    load succeeds, the map holds the entry that load produced. *)
Theorem C1_failed_load_is_not_cached method s :
  wf s →
  method_vars_ s !! method = None →
  (∀ jvmti,
     (LoadEntry jvmti (local_variables_visibility_policy_ s) method).1 = None →
     let r := GetLocalVariables jvmti method s in
     heap s !! r.1 = None
     ∧ heap r.2 !! r.1 = Some new_Entry
     ∧ method_vars_ r.2 = method_vars_ s
     ∧ (∀ m, method_vars_ r.2 !! m ≠ Some r.1)
     ∧ (∀ jvmti',
          call_LoadEntry method
            ∈ events_since r.2 (GetLocalVariables jvmti' method r.2).2))
  ∧ (∀ failing jvmti entry,
       Forall (λ jvmti,
                 (LoadEntry jvmti (local_variables_visibility_policy_ s)
                    method).1 = None) failing →
       (LoadEntry jvmti (local_variables_visibility_policy_ s) method).1
         = Some entry →
       let s' := GetLocalVariables_each (failing ++ [jvmti]) method s in
       ∃ p, method_vars_ s' !! method = Some p ∧ heap s' !! p = Some entry).
Proof.
  intros Hwf Hmiss. split.
  - intros jvmti Hload. simpl.
    rewrite GetLocalVariables_failed by done. simpl.
    repeat split.
    + by apply lookup_ge_None_2.
    + by apply list_lookup_middle.
    + intros m Hm%Hwf. lia.
    + intros jvmti'. by apply GetLocalVariables_miss_loads.
  - intros failing jvmti entry Hfailing Hload. simpl.
    destruct (failing_calls_leave_cache failing method s Hmiss Hfailing)
      as [Hvars Hpolicy].
    unfold GetLocalVariables_each in *. rewrite foldl_app. simpl.
    rewrite (GetLocalVariables_loaded _ _ _ entry).
    + eexists. simpl. rewrite lookup_insert_eq. split; [done|].
      by apply list_lookup_middle.
    + by rewrite Hvars.
    + by rewrite Hpolicy.
Qed.

(** C4. When the policy denies the locals of the method's declaring class
    and method, the load yields an entry with the resolved instance
    descriptor, if any, and no variables, without asking for the variable
    table; [GetLocalVariables] stores that entry in the map, and every later
    call returns the same entry without loading again. *)
Theorem C4_policy_denial_is_cached jvmti policy cls method s :
  local_variables_visibility_policy_ s = Some policy →
  GetMethodDeclaringClass jvmti method = (JVMTI_ERROR_NONE, cls) →
  policy cls method = false →
  method_vars_ s !! method = None →
  let entry :=
    {| local_instance := (LoadLocalInstance jvmti cls method).1;
       locals := [] |} in
  let r := GetLocalVariables jvmti method s in
  (LoadEntry jvmti (Some policy) method).1 = Some entry
  ∧ (∀ err, jvmti_GetLocalVariableTable method err
              ∉ (LoadEntry jvmti (Some policy) method).2)
  ∧ method_vars_ r.2 !! method = Some r.1
  ∧ heap r.2 !! r.1 = Some entry
  ∧ (∀ jvmti',
       (GetLocalVariables jvmti' method r.2).1 = r.1
       ∧ call_LoadEntry method
           ∉ events_since r.2 (GetLocalVariables jvmti' method r.2).2).
Proof.
  intros Hpolicy Hcls Hdeny Hmiss. simpl.
  assert (Hload : (LoadEntry jvmti (Some policy) method).1 =
                  Some {| local_instance := (LoadLocalInstance jvmti cls method).1;
                          locals := [] |}
                  ∧ ∀ err, jvmti_GetLocalVariableTable method err
                             ∉ (LoadEntry jvmti (Some policy) method).2).
  { destruct (LoadEntry_outcome jvmti (Some policy) method); same_lhs;
      simpl in *; try congruence; try (rewrite Hdeny in *; done).
    split; [done|]. intros err Hin.
    apply prologue_calls in Hin. set_solver. }
  destruct Hload as [Hload Hnotable].
  split; [done|]. split; [done|].
  rewrite (GetLocalVariables_loaded _ _ _ _ Hmiss)
    by (by rewrite Hpolicy).
  simpl. split; [by rewrite lookup_insert_eq|].
  split; [by apply list_lookup_middle|].
  intros jvmti'.
  edestruct (GetLocalVariables_hit_no_load jvmti' method) as (? & _ & _ & ?);
    [|split; done].
  simpl. by rewrite lookup_insert_eq.
Qed.

(** C10. Neither [GetLocalVariables] nor the unload handler, called for a
    handle, changes what the map holds for any other handle. *)
Theorem C10_other_handles_untouched jvmti method method' s :
  method ≠ method' →
  method_vars_ (GetLocalVariables jvmti method s).2 !! method'
    = method_vars_ s !! method'
  ∧ method_vars_ (MethodLocals.JvmtiOnCompiledMethodUnload method s) !! method'
    = method_vars_ s !! method'.
Proof.
  intros Hne. split.
  - destruct (method_vars_ s !! method) as [p|] eqn:Hp.
    { by rewrite (GetLocalVariables_cached _ _ _ p). }
    destruct (LoadEntry jvmti (local_variables_visibility_policy_ s) method).1
      as [entry|] eqn:Hload.
    + rewrite (GetLocalVariables_loaded _ _ _ entry) by done. simpl.
      by rewrite lookup_insert_ne.
    + by rewrite GetLocalVariables_failed.
  - simpl. by rewrite lookup_delete_ne.
Qed.

End CacheClaims.

(** * Threads racing on a handle *)

Section Race.
Context (P : Entry → Prop) (method : jmethodID).
Implicit Types (s : state) (t : thread) (jvmti : jvmtiEnv).

Lemma grown_refl s : grown s s.
Proof. split; [done|]. split; [by exists []; rewrite app_nil_r|done]. Qed.

Lemma thread_inv_grown s s' t :
  grown s s' → thread_inv P method s t → thread_inv P method s' t.
Proof.
  intros (_ & [more Hheap] & Hvars) [Hm Ht]. split; [done|].
  destruct t as [| |? [locals|]|]; try done.
  - destruct Ht as (entry & Hentry & HP). exists entry. split; [|done].
    rewrite Hheap. by apply lookup_app_l_Some.
  - by apply Hvars.
Qed.

(** One step of a thread keeps what is known of it and of the map. *)
Lemma thread_step_inv jvmti t s :
  (∃ entry,
     (LoadEntry jvmti (local_variables_visibility_policy_ s) method).1
       = Some entry ∧ P entry) →
  cache_inv P method s →
  thread_inv P method s t →
  grown s (thread_step jvmti t s).2
  ∧ cache_inv P method (thread_step jvmti t s).2
  ∧ thread_inv P method (thread_step jvmti t s).2 (thread_step jvmti t s).1.
Proof.
  intros (entry & Hload & HP) Hcache [Hm Ht].
  destruct t as [m|m|m [locals|]|m result]; simpl in Hm; subst m; simpl.
  - (* the fast path *)
    unfold find_cached. simpl.
    destruct (method_vars_ s !! method) as [p|] eqn:Hp; simpl.
    + split; [split; [done|]; split; [by exists []; rewrite app_nil_r|done]|].
      split; [done|]. by split.
    + split; [split; [done|]; split; [by exists []; rewrite app_nil_r|done]|].
      split; [done|]. by split.
  - (* the load *)
    unfold call_LoadEntry_shared.
    destruct (LoadEntry _ _ _) as [r calls]. simpl in Hload. subst r. simpl.
    split; [split; [done|]; split; [by eexists|done]|].
    split.
    + intros p (e & He & HPe)%Hcache. exists e. split; [|done].
      simpl. by apply lookup_app_l_Some.
    + split; [done|]. exists entry. split; [|done].
      simpl. by apply list_lookup_middle.
  - (* the insertion *)
    destruct Ht as (e & He & HPe).
    unfold insert_locals. simpl.
    destruct (method_vars_ s !! method) as [winner|] eqn:Hwinner; simpl.
    + split; [split; [done|]; split; [by exists []; rewrite app_nil_r|done]|].
      split; [done|]. by split.
    + split.
      { split; [done|]. split; [by exists []; rewrite app_nil_r|].
        intros m p Hmp. simpl.
        destruct (decide (method = m)) as [->|Hne]; [congruence|].
        by rewrite lookup_insert_ne. }
      split.
      * intros p. simpl. rewrite lookup_insert_eq. intros [= <-]. by exists e.
      * split; [done|]. simpl. by rewrite lookup_insert_eq.
  - (* a failed load does not occur here *)
    destruct Ht.
  - (* the thread has returned *)
    split; [apply grown_refl|]. split; [done|]. by split.
Qed.

Lemma thread_step_remaining jvmti t s :
  (remaining (thread_step jvmti t s).1 ≤ remaining t - 1)%nat.
Proof.
  destruct t as [m|m|m locals|m result]; unfold thread_step.
  - destruct (find_cached m s) as [[p|] s']; simpl; lia.
  - destruct (call_LoadEntry_shared jvmti m s); simpl; lia.
  - destruct (publish m locals s); simpl; lia.
  - simpl. lia.
Qed.

Lemma sys_step_inv pol next sys :
  (∃ entry, (LoadEntry next.2 pol method).1 = Some entry ∧ P entry) →
  local_variables_visibility_policy_ sys.2 = pol →
  cache_inv P method sys.2 →
  Forall (thread_inv P method sys.2) sys.1 →
  local_variables_visibility_policy_ (sys_step sys next).2 = pol
  ∧ cache_inv P method (sys_step sys next).2
  ∧ Forall (thread_inv P method (sys_step sys next).2) (sys_step sys next).1.
Proof.
  intros Hload Hpol Hcache Hthreads. unfold sys_step.
  destruct (sys.1 !! next.1) as [t|] eqn:Ht; [|done].
  rewrite <- Hpol in Hload.
  destruct (thread_step_inv next.2 t sys.2 Hload Hcache) as (Hg & Hc & Hi).
  { by eapply Forall_lookup_1. }
  destruct (thread_step next.2 t sys.2) as [t' s']. simpl in *.
  split; [destruct Hg as [-> _]; done|]. split; [done|].
  apply Forall_insert; [|done].
  eapply Forall_impl; [done|]. intros t0. by apply thread_inv_grown.
Qed.

Lemma run_inv pol schedule sys :
  Forall (λ next, ∃ entry,
            (LoadEntry next.2 pol method).1 = Some entry ∧ P entry) schedule →
  local_variables_visibility_policy_ sys.2 = pol →
  cache_inv P method sys.2 →
  Forall (thread_inv P method sys.2) sys.1 →
  local_variables_visibility_policy_ (run schedule sys).2 = pol
  ∧ cache_inv P method (run schedule sys).2
  ∧ Forall (thread_inv P method (run schedule sys).2) (run schedule sys).1.
Proof.
  revert sys. induction schedule as [|next schedule IH]; intros sys; [done|].
  intros [Hnext Hloads]%Forall_cons Hpol Hcache Hthreads.
  destruct (sys_step_inv pol next sys) as (? & ? & ?); [done..|].
  by apply IH.
Qed.

Lemma sys_step_length next sys :
  List.length (sys_step sys next).1 = List.length sys.1.
Proof.
  unfold sys_step. destruct (sys.1 !! next.1); [|done].
  destruct (thread_step _ _ _). simpl. apply length_insert.
Qed.

Lemma run_length schedule sys :
  List.length (run schedule sys).1 = List.length sys.1.
Proof.
  revert sys. induction schedule as [|next schedule IH]; intros sys; [done|].
  unfold run in *. simpl. rewrite IH. apply sys_step_length.
Qed.

(** A thread that is scheduled often enough has returned. *)
Lemma run_remaining schedule sys i t :
  sys.1 !! i = Some t →
  ∃ t', (run schedule sys).1 !! i = Some t' ∧
        (remaining t' ≤ remaining t - scheduled i schedule)%nat.
Proof.
  revert sys t. induction schedule as [|next schedule IH]; intros sys t Ht.
  { exists t. split; [done|]. unfold scheduled. simpl. lia. }
  unfold run, scheduled in *. simpl. rewrite filter_cons.
  destruct (decide (next.1 = i)) as [<-|Hne].
  - assert (∃ t1, (sys_step sys next).1 !! next.1 = Some t1 ∧
                  (remaining t1 ≤ remaining t - 1)%nat) as (t1 & Ht1 & Hrem).
    { unfold sys_step. rewrite Ht.
      pose proof (thread_step_remaining next.2 t sys.2) as Hrem.
      destruct (thread_step _ _ _) as [t1 s1]. simpl in *.
      exists t1. split; [|done].
      apply list_lookup_insert_eq. by eapply lookup_lt_Some. }
    destruct (IH _ _ Ht1) as (t' & Ht' & Hrem').
    exists t'. split; [done|]. simpl. lia.
  - assert ((sys_step sys next).1 !! i = Some t) as Ht1.
    { unfold sys_step. destruct (sys.1 !! next.1); [|done].
      destruct (thread_step _ _ _). simpl. by rewrite list_lookup_insert_ne. }
    apply (IH _ _ Ht1).
Qed.

End Race.

(** C2. Publishing a candidate for a handle that already has an entry leaves
    the map as it is and returns the entry that is there. So when any number
    of threads call [GetLocalVariables] for a handle that is not cached,
    their steps interleaved in any order, every load succeeding, and each
    thread is scheduled until it returns, the map holds one pointer for the
    handle, it points to an entry one of the loads produced, and every
    thread has returned that pointer. *)
Theorem C2_first_insert_wins method n schedule s :
  (0 < n)%nat →
  (∀ i, (i < n)%nat → (3 ≤ scheduled i schedule)%nat) →
  Forall (λ next,
            is_Some (LoadEntry next.2 (local_variables_visibility_policy_ s)
                       method).1) schedule →
  method_vars_ s !! method = None →
  (∀ jvmti s1 candidate winner,
     method_vars_ s1 !! method = Some winner →
     thread_step jvmti (Publishing method (Some candidate)) s1
     = (Returned method winner,
        emit [MutexLock_acquire; map_insert method; MutexLock_release] s1))
  ∧ ∃ p entry,
      method_vars_ (run schedule (replicate n (Calling method), s)).2 !! method
        = Some p
      ∧ heap (run schedule (replicate n (Calling method), s)).2 !! p
        = Some entry
      ∧ (∃ next, next ∈ schedule ∧
           (LoadEntry next.2 (local_variables_visibility_policy_ s) method).1
             = Some entry)
      ∧ (run schedule (replicate n (Calling method), s)).1
        = replicate n (Returned method p).
Proof.
  intros Hn Hfair Hloads Hcold. split.
  { intros jvmti s1 candidate winner Hwinner. simpl.
    unfold insert_locals, emit. simpl. rewrite Hwinner. simpl.
    by rewrite <- app_assoc. }
  set (pol := local_variables_visibility_policy_ s) in *.
  set (P := λ entry, ∃ next, next ∈ schedule ∧
                             (LoadEntry next.2 pol method).1 = Some entry).
  set (sys := (replicate n (Calling method), s)).
  destruct (run_inv P method pol schedule sys) as (_ & Hcache & Hthreads).
  { apply Forall_forall. intros next Hnext.
    pose proof (proj1 (Forall_forall _ _) Hloads next Hnext) as [entry Hentry].
    exists entry. split; [done|]. by exists next. }
  { done. }
  { intros p. simpl. by rewrite Hcold. }
  { apply Forall_replicate. by split. }
  assert (Hreturned : ∀ i, (i < n)%nat →
            ∃ p, (run schedule sys).1 !! i = Some (Returned method p) ∧
                 method_vars_ (run schedule sys).2 !! method = Some p).
  { intros i Hi.
    destruct (run_remaining schedule sys i (Calling method)) as (t & Ht & Hrem).
    { by apply lookup_replicate_2. }
    specialize (Hfair i Hi). simpl in Hrem.
    pose proof (proj1 (Forall_lookup _ _) Hthreads i t Ht) as [Hm Hres].
    destruct t as [| | |m result]; simpl in Hrem; try lia.
    simpl in Hm. subst m. by exists result. }
  destruct (Hreturned 0%nat Hn) as (p & _ & Hp).
  destruct (Hcache p Hp) as (entry & Hentry & HP).
  exists p, entry. repeat split; try done.
  apply list_eq_same_length with n.
  - by rewrite length_replicate.
  - rewrite run_length. simpl. by rewrite length_replicate.
  - intros i t t' Hi Ht Ht'.
    destruct (Hreturned i Hi) as (q & Hq & Hqp).
    apply lookup_replicate in Ht' as [-> _]. congruence.
Qed.

(** A thread that runs its three steps without interruption has executed
    [GetLocalVariables]. *)
Lemma GetLocalVariables_as_steps jvmti method s :
  run [(0%nat, jvmti); (0%nat, jvmti); (0%nat, jvmti)] ([Calling method], s)
  = ([Returned method (GetLocalVariables jvmti method s).1],
     (GetLocalVariables jvmti method s).2).
Proof.
  unfold run, sys_step, GetLocalVariables. simpl.
  destruct (method_vars_ s !! method) as [p|]; simpl; [done|].
  destruct (call_LoadEntry_shared _ _ _) as [locals s1]. simpl.
  by destruct (publish _ _ _).
Qed.

(** * Locking *)

Section Locking.
Implicit Types (s : state) (method : jmethodID) (jvmti : jvmtiEnv).

(** Introspection calls made with the mutex free are fine. *)
Lemma locked_introspection calls evs :
  Forall (λ ev, introspects ev = true) calls →
  locked false (calls ++ evs) = locked false evs.
Proof.
  induction 1 as [|ev calls Hev _ IH]; [done|].
  destruct ev; done.
Qed.

(** [GetLocalVariables] looks up and inserts with the mutex held, and loads
    with the mutex free. *)
Lemma GetLocalVariables_locked jvmti method s :
  locked false (events_since s (GetLocalVariables jvmti method s).2) = true.
Proof.
  destruct (method_vars_ s !! method) as [p|] eqn:Hp.
  { rewrite (GetLocalVariables_cached _ _ _ p) by done.
    erewrite events_since_app; [|done]. done. }
  pose proof (LoadEntry_introspects jvmti
                (local_variables_visibility_policy_ s) method) as Hcalls.
  destruct (LoadEntry jvmti (local_variables_visibility_policy_ s) method).1
    as [entry|] eqn:Hload.
  - rewrite (GetLocalVariables_loaded _ _ _ entry) by done.
    erewrite events_since_app; [|done]. simpl.
    by rewrite locked_introspection.
  - rewrite GetLocalVariables_failed by done.
    erewrite events_since_app; [|done]. simpl.
    by rewrite locked_introspection.
Qed.

(** C9. [GetLocalVariables] makes its lookup and its insertion inside a
    [MutexLock] scope and runs the load outside of any, but the unload
    handler erases the mapping without taking the mutex: its whole trace is
    the erase. *)
Theorem C9_unload_erases_without_lock jvmti method s :
  locked false (events_since s (GetLocalVariables jvmti method s).2) = true
  ∧ events_since s (MethodLocals.JvmtiOnCompiledMethodUnload method s)
    = [map_erase method]
  ∧ locked false
      (events_since s (MethodLocals.JvmtiOnCompiledMethodUnload method s))
    = false.
Proof.
  split; [apply GetLocalVariables_locked|].
  assert (events_since s (MethodLocals.JvmtiOnCompiledMethodUnload method s)
          = [map_erase method]) as ->; [|done].
  by apply events_since_app.
Qed.

End Locking.

(** * The orchestrator *)

Section DebuggerClaims.
Context {EvalCallStack JvmBreakpointsManager ClassIndexer : Type}.
Context (EvalCallStack_JvmtiOnCompiledMethodUnload :
           jmethodID → EvalCallStack → EvalCallStack).
Context (JvmBreakpointsManager_JvmtiOnCompiledMethodUnload :
           jmethodID → JvmBreakpointsManager → JvmBreakpointsManager).
Context (JvmBreakpointsManager_Cleanup :
           ClassIndexer → JvmBreakpointsManager → JvmBreakpointsManager).
Context (ClassIndexer_Cleanup : ClassIndexer → ClassIndexer).

Abbreviation Debugger :=
  (@Debugger.Debugger EvalCallStack JvmBreakpointsManager ClassIndexer).
Abbreviation unload :=
  (Debugger.JvmtiOnCompiledMethodUnload
     EvalCallStack_JvmtiOnCompiledMethodUnload
     JvmBreakpointsManager_JvmtiOnCompiledMethodUnload).
Abbreviation destroy :=
  (Debugger.destroy JvmBreakpointsManager_Cleanup ClassIndexer_Cleanup).

(** C7. After the orchestrator has handled the unload event for a handle,
    the cache holds no mapping for it; when it held none before, the map and
    the heap are as they were; and the next [GetLocalVariables] for the
    handle runs the load and does not return the entry that was cached
    before the event. *)
Theorem C7_unload_evicts method (d : Debugger) :
  let s := Debugger.method_locals_ d in
  let s' := Debugger.method_locals_ (unload method d) in
  Debugger.calls (unload method d) =
    Debugger.calls d ++
      [Debugger.eval_call_stack_JvmtiOnCompiledMethodUnload method;
       Debugger.method_locals_JvmtiOnCompiledMethodUnload method;
       Debugger.breakpoints_manager_JvmtiOnCompiledMethodUnload method]
  ∧ method_vars_ s' !! method = None
  ∧ (method_vars_ s !! method = None →
     method_vars_ s' = method_vars_ s ∧ heap s' = heap s)
  ∧ (∀ jvmti,
       call_LoadEntry method
         ∈ events_since s' (GetLocalVariables jvmti method s').2
       ∧ (∀ stale,
            wf s → method_vars_ s !! method = Some stale →
            (GetLocalVariables jvmti method s').1 ≠ stale)).
Proof.
  simpl. split; [by rewrite <- !app_assoc|].
  split; [apply lookup_delete_eq|].
  split; [intros Hnone; split; [by apply delete_id|done]|].
  intros jvmti.
  set (s' := MethodLocals.JvmtiOnCompiledMethodUnload method
               (Debugger.method_locals_ d)).
  assert (Hmiss : method_vars_ s' !! method = None) by apply lookup_delete_eq.
  split; [by apply GetLocalVariables_miss_loads|].
  intros stale Hwf Hstale%Hwf.
  destruct (LoadEntry jvmti (local_variables_visibility_policy_ s') method).1
    as [entry|] eqn:Hload.
  - rewrite (GetLocalVariables_loaded _ _ _ entry) by done. simpl. lia.
  - rewrite GetLocalVariables_failed by done. simpl. lia.
Qed.

(** C8. The destructor calls the breakpoints manager's cleanup and then the
    class indexer's cleanup, and nothing else: the manager is cleaned up
    while the class indexer is still as it was, and the indexer after. *)
Theorem C8_teardown_order (d : Debugger) :
  Debugger.calls (destroy d) =
    Debugger.calls d ++
      [Debugger.breakpoints_manager_Cleanup; Debugger.class_indexer_Cleanup]
  ∧ Debugger.breakpoints_manager_ (destroy d) =
      JvmBreakpointsManager_Cleanup
        (Debugger.class_indexer_ d) (Debugger.breakpoints_manager_ d)
  ∧ Debugger.class_indexer_ (destroy d) =
      ClassIndexer_Cleanup (Debugger.class_indexer_ d)
  ∧ (∀ i j,
       (Debugger.calls (destroy d)) !! i = Some Debugger.breakpoints_manager_Cleanup →
       (Debugger.calls (destroy d)) !! j = Some Debugger.class_indexer_Cleanup →
       (List.length (Debugger.calls d) ≤ i)%nat →
       (List.length (Debugger.calls d) ≤ j)%nat →
       (i < j)%nat).
Proof.
  simpl. split; [by rewrite <- app_assoc|]. split; [done|]. split; [done|].
  intros i j. rewrite <- app_assoc. simpl. intros Hi Hj Hlei Hlej.
  rewrite lookup_app_r in Hi, Hj by done.
  destruct (i - List.length (Debugger.calls d))%nat as [|[|?]] eqn:Ei;
    destruct (j - List.length (Debugger.calls d))%nat as [|[|?]] eqn:Ej;
    simplify_eq; lia.
Qed.

End DebuggerClaims.

(** * Sample runs *)

Section Samples.

Lemma MethodLocals_new_wf policy : wf (MethodLocals_new policy).
Proof. intros m p Hp. simpl in Hp. by rewrite lookup_empty in Hp. Defined.

(** The table of the specification: slots 0 to 3 with two argument slots. *)
Example classification_0123 :
  (λ entry, is_argument <$> locals entry) <$> (LoadEntry jvm_ok None 5%N).1
  = Some [true; true; false; false].
Proof. reflexivity. Qed.

(** Two failing loads, then one that succeeds. *)
Lemma C1_witness :
  ∃ p,
    method_vars_
      (GetLocalVariables_each
         ([jvm_table_failing; jvm_table_failing] ++ [jvm_ok]) 5%N
         (MethodLocals_new None)) !! 5%N = Some p
    ∧ heap
        (GetLocalVariables_each
           ([jvm_table_failing; jvm_table_failing] ++ [jvm_ok]) 5%N
           (MethodLocals_new None)) !! p
      = (LoadEntry jvm_ok None 5%N).1.
Proof.
  apply (proj2 (C1_failed_load_is_not_cached 5%N (MethodLocals_new None)
                  (MethodLocals_new_wf None) eq_refl)
           [jvm_table_failing; jvm_table_failing] jvm_ok).
  - constructor; [reflexivity|]. constructor; [reflexivity|]. constructor.
  - reflexivity.
Defined.

(** Two threads racing on handle 5. *)
Lemma C2_witness :
  ∃ p entry,
    method_vars_
      (run race_schedule
         (replicate 2 (Calling 5%N), MethodLocals_new None)).2 !! 5%N = Some p
    ∧ heap
        (run race_schedule
           (replicate 2 (Calling 5%N), MethodLocals_new None)).2 !! p
      = Some entry
    ∧ (∃ next, next ∈ race_schedule ∧
         (LoadEntry next.2
            (local_variables_visibility_policy_ (MethodLocals_new None))
            5%N).1 = Some entry)
    ∧ (run race_schedule
         (replicate 2 (Calling 5%N), MethodLocals_new None)).1
      = replicate 2 (Returned 5%N p).
Proof.
  apply (C2_first_insert_wins 5%N 2 race_schedule (MethodLocals_new None)).
  - lia.
  - intros [|[|i]] Hi; [vm_compute; lia..|lia].
  - repeat (constructor; [eexists; reflexivity|]). constructor.
  - reflexivity.
Defined.

(** A class without debug information, and a JVM that cannot read the
    table. *)
Lemma C3_witness :
  (LoadEntry jvm_no_debug_info None 5%N).1
    = Some {| local_instance := (LoadLocalInstance jvm_no_debug_info 1%N 5%N).1;
              locals := [] |}
  ∧ (LoadEntry jvm_table_failing None 5%N).1 = None.
Proof.
  split.
  - apply (proj2 (proj2 (proj2
             (C3_load_fails_iff_transient jvm_no_debug_info None 5%N))));
      [reflexivity|reflexivity|left; reflexivity].
  - apply (proj2 (proj1 (proj2 (proj2
             (C3_load_fails_iff_transient jvm_table_failing None 5%N))))).
    right. repeat split; try reflexivity; discriminate.
Defined.

(** A policy that denies everything. *)
Lemma C4_witness :
  (LoadEntry jvm_ok (Some deny_all) 5%N).1
  = Some {| local_instance := (LoadLocalInstance jvm_ok 1%N 5%N).1;
            locals := [] |}.
Proof.
  apply (C4_policy_denial_is_cached jvm_ok deny_all 1%N 5%N
           (MethodLocals_new (Some deny_all)));
    reflexivity.
Defined.

(** An instance method gets the descriptor; when the modifiers cannot be
    read there is none, and the load produces its entry all the same. *)
Lemma C5_witness :
  (LoadLocalInstance jvm_ok 1%N 5%N).1
    = Some (JvmLocalVariableReader
              {| start_location := 0;
                 length := -1;
                 name := "this";
                 signature := "LFoo;";
                 generic_signature := None;
                 slot := 0 |}
              true)
  ∧ (LoadLocalInstance jvm_modifiers_failing 1%N 5%N).1 = None
  ∧ ∃ entry,
      (LoadEntry jvm_modifiers_failing None 5%N).1 = Some entry
      ∧ local_instance entry
        = (LoadLocalInstance jvm_modifiers_failing 1%N 5%N).1.
Proof.
  split; [|split].
  - apply (proj1 (proj2 (C5_instance_descriptor jvm_ok None 1%N 5%N)));
      reflexivity.
  - apply (proj1 (proj2 (proj2
             (C5_instance_descriptor jvm_modifiers_failing None 1%N 5%N)))).
    left. discriminate.
  - apply (proj1 (proj2 (proj2 (proj2
             (C5_instance_descriptor jvm_modifiers_failing None 1%N 5%N)))));
      [reflexivity|right; left; reflexivity].
Defined.

(** The argument size cannot be read. *)
Lemma C6_witness :
  ∃ entry,
    (LoadEntry jvm_args_failing None 5%N).1 = Some entry
    ∧ variable <$> locals entry = table_0123
    ∧ (∀ i reader,
         locals entry !! i = Some reader →
         (is_argument reader = true ↔
          slot (variable reader) < arguments_size_or_zero jvm_args_failing 5%N))
    ∧ ((GetArgumentsSize jvm_args_failing 5%N).1 ≠ JVMTI_ERROR_NONE →
       Forall (λ v, 0 ≤ slot v) table_0123 →
       Forall (λ reader, is_argument reader = false) (locals entry)).
Proof.
  apply (C6_arguments_and_locals jvm_args_failing None 1%N 5%N table_0123);
    reflexivity.
Defined.

(** Unloading a method that was never looked up changes nothing. *)
Lemma C7_witness :
  method_vars_
    (Debugger.method_locals_
       (Debugger.JvmtiOnCompiledMethodUnload
          (λ _ (x : unit), x) (λ _ (x : unit), x) 5%N Debugger.sample))
  = method_vars_ (Debugger.method_locals_ Debugger.sample)
  ∧ heap
      (Debugger.method_locals_
         (Debugger.JvmtiOnCompiledMethodUnload
            (λ _ (x : unit), x) (λ _ (x : unit), x) 5%N Debugger.sample))
    = heap (Debugger.method_locals_ Debugger.sample).
Proof.
  apply (C7_unload_evicts
           (λ _ (x : unit), x) (λ _ (x : unit), x) 5%N Debugger.sample).
  reflexivity.
Defined.

(** The two cleanups of the sample orchestrator, by position. *)
Lemma C8_witness :
  Debugger.calls
    (Debugger.destroy (λ (_ x : unit), x) (λ x : unit, x) Debugger.sample)
    !! 0%nat = Some Debugger.breakpoints_manager_Cleanup
  ∧ Debugger.calls
      (Debugger.destroy (λ (_ x : unit), x) (λ x : unit, x) Debugger.sample)
      !! 1%nat = Some Debugger.class_indexer_Cleanup
  ∧ (0 < 1)%nat.
Proof.
  split; [reflexivity|]. split; [reflexivity|].
  apply (proj2 (proj2 (proj2
           (C8_teardown_order (λ (_ x : unit), x) (λ x : unit, x)
              Debugger.sample))) 0%nat 1%nat);
    first [reflexivity | simpl; lia].
Defined.

(** Looking up handle 5 leaves handle 6 alone. *)
Lemma C10_witness :
  method_vars_ (GetLocalVariables jvm_ok 5%N (MethodLocals_new None)).2 !! 6%N
  = method_vars_ (MethodLocals_new None) !! 6%N.
Proof.
  apply (C10_other_handles_untouched jvm_ok 5%N 6%N (MethodLocals_new None)).
  discriminate.
Defined.

End Samples.

(** * More about the load algorithm *)

Section LoadExtras.
Context (jvmti : jvmtiEnv) (policy : option LocalVariablesVisibilityPolicy).

Ltac split_calls Hin :=
  repeat (apply elem_of_app in Hin as [Hin|Hin]);
  try apply prologue_calls in Hin.

(** X1. [LoadEntry] asks for the argument size exactly when the declaring
    class resolved, the policy did not deny, and the variable table came
    back without error and not empty; the recorded error is the one the JVM
    gave. *)
Theorem GetArgumentsSize_queried_iff method err :
  jvmti_GetArgumentsSize method err ∈ (LoadEntry jvmti policy method).2 ↔
    (GetMethodDeclaringClass jvmti method).1 = JVMTI_ERROR_NONE
    ∧ denied policy (GetMethodDeclaringClass jvmti method).2 method = false
    ∧ (GetLocalVariableTable jvmti method).1 = JVMTI_ERROR_NONE
    ∧ (GetLocalVariableTable jvmti method).2 ≠ []
    ∧ err = (GetArgumentsSize jvmti method).1.
Proof.
  destruct (LoadEntry_outcome jvmti policy method) as
    [? ? Hcls|? Hcls ?|? ? ? Hcls ? Htable|? ? ? Hcls ? Htable
    |? Hcls ? Htable|? ? ? ? Hcls ? Htable ? Hargs];
    rewrite Hcls; try rewrite Htable; try rewrite Hargs; cbn [fst snd].
  all: split;
    [intros Hin; split_calls Hin; try (exfalso; set_solver)
    |intros (? & ? & ? & ? & ?); try congruence].
  - subst. by match goal with H : _ ∨ _ |- _ => destruct H end.
  - apply elem_of_cons in Hin as [Hin|Hin]; [done|].
    apply list_elem_of_singleton in Hin. by simplify_eq.
  - subst. set_solver.
Qed.


(** X2. [LoadLocalInstance] asks for the class signature exactly when the
    modifiers were read without error and do not carry the static flag, and
    then for the class it was given. *)
Theorem GetClassSignature_queried_iff cls method cls' err :
  jvmti_GetClassSignature cls' err ∈ (LoadLocalInstance jvmti cls method).2 ↔
    cls' = cls
    ∧ (GetMethodModifiers jvmti method).1 = JVMTI_ERROR_NONE
    ∧ Z.land (GetMethodModifiers jvmti method).2 JVM_ACC_STATIC = 0
    ∧ err = (GetClassSignature jvmti cls).1.
Proof.
  destruct (LoadLocalInstance_outcome jvmti cls method) as
    [? ? Hm|? Hm|? ? ? Hm ? Hs|? ? ? Hm ? Hs];
    rewrite Hm; try rewrite Hs; cbn [fst snd].
  all: split; [intros Hin|intros (? & ? & ? & ?); subst].
  all: try set_solver.
  all: repeat (apply elem_of_cons in Hin as [Hin|Hin]; simplify_eq); try done.
  all: by apply elem_of_nil in Hin.
Qed.

(** X3. A load starts with the declaring-class query, makes no query twice,
    and makes at most six calls in all. *)
Theorem LoadEntry_calls_shape method :
  head (LoadEntry jvmti policy method).2 =
    Some (jvmti_GetMethodDeclaringClass method
            (GetMethodDeclaringClass jvmti method).1)
  ∧ NoDup (LoadEntry jvmti policy method).2
  ∧ (List.length (LoadEntry jvmti policy method).2 ≤ 6)%nat.
Proof.
  destruct (LoadEntry_outcome jvmti policy method) as
    [? ? Hcls|cls Hcls ?|cls ? ? Hcls|cls ? ? Hcls|cls Hcls|cls ? ? ? Hcls];
    rewrite Hcls; cbn [fst snd]; unfold prologue, policy_calls.
  all: try (destruct (LoadLocalInstance_outcome jvmti cls method);
            destruct policy; simpl).
  all: split; [done|]; split; [|simpl; lia].
  all: repeat (apply NoDup_cons; split; [set_solver|]); apply NoDup_nil_2.
Qed.

(** X4. A policy that lets the method's locals be seen changes nothing in
    what the load returns. *)
Theorem permitting_policy_is_no_policy visible method :
  visible (GetMethodDeclaringClass jvmti method).2 method = true →
  (LoadEntry jvmti (Some visible) method).1 = (LoadEntry jvmti None method).1.
Proof.
  intros Hvisible.
  destruct (LoadEntry_outcome jvmti (Some visible) method);
    destruct (LoadEntry_outcome jvmti None method);
    same_lhs;
    try match goal with
        | H : GetMethodDeclaringClass _ _ = _ |- _ => rewrite H in Hvisible
        end;
    simpl in *; try rewrite Hvisible in *; simpl in *;
    try done; try congruence; try tauto.
  all: by match goal with H : _ ∨ _ |- _ => destruct H end.
Qed.

Lemma static_flag_bit method_modifiers :
  Z.land method_modifiers JVM_ACC_STATIC = 0 ↔
  Z.testbit method_modifiers 3 = false.
Proof.
  change JVM_ACC_STATIC with (2 ^ 3). split.
  - intros Hland.
    assert (Z.testbit (Z.land method_modifiers (2 ^ 3)) 3 = false) as Hbit
      by (by rewrite Hland).
    rewrite Z.land_spec, Z.pow2_bits_true in Hbit by lia.
    by rewrite andb_true_r in Hbit.
  - intros Hbit. apply Z.bits_inj'. intros n Hn.
    rewrite Z.land_spec, Z.bits_0, Z.pow2_bits_eqb by lia.
    destruct (Z.eqb_spec 3 n) as [<-|]; [by rewrite Hbit|].
    by rewrite andb_false_r.
Qed.

(** X5. Of the modifiers, only bit 3, the static flag, bears on the instance
    descriptor: a JVM that reports other modifiers with the same bit 3 gives
    the same descriptor. *)
Theorem only_the_static_flag_matters cls method method_modifiers :
  Z.testbit method_modifiers 3 =
    Z.testbit (GetMethodModifiers jvmti method).2 3 →
  (LoadLocalInstance (with_modifiers method_modifiers jvmti) cls method).1
  = (LoadLocalInstance jvmti cls method).1.
Proof.
  intros Hbit.
  unfold LoadLocalInstance, mbind, Traced_bind, mret, Traced_ret, performed.
  simpl. destruct (GetMethodModifiers jvmti method) as [err mods].
  cbn [fst snd] in *.
  destruct (decide (err ≠ JVMTI_ERROR_NONE)); [done|]. cbn [fst snd].
  destruct (decide (Z.land mods JVM_ACC_STATIC ≠ 0)) as [Hs|Hs].
  - rewrite decide_True; [done|].
    rewrite static_flag_bit in Hs |- *. congruence.
  - rewrite decide_False; [done|].
    apply dec_stable in Hs. rewrite static_flag_bit in Hs.
    intros Hne. apply Hne. apply static_flag_bit. congruence.
Qed.

End LoadExtras.

(** * Histories of requests to the cache *)

Section Histories.
Implicit Types (s : state) (method : jmethodID) (p : ptr) (jvmti : jvmtiEnv)
  (r : request) (history : list request).

(** The three ways through [GetLocalVariables], as cases. *)
Lemma GetLocalVariables_cases jvmti method s :
  (∃ p, method_vars_ s !! method = Some p ∧
        GetLocalVariables jvmti method s =
          (p, emit [MutexLock_acquire; map_find method; MutexLock_release] s))
  ∨ (∃ entry calls,
       method_vars_ s !! method = None ∧
       LoadEntry jvmti (local_variables_visibility_policy_ s) method
         = (Some entry, calls) ∧
       GetLocalVariables jvmti method s =
         (List.length (heap s),
          {| local_variables_visibility_policy_ :=
               local_variables_visibility_policy_ s;
             method_vars_ := <[method := List.length (heap s)]> (method_vars_ s);
             heap := heap s ++ [entry];
             trace :=
               trace s
                 ++ [MutexLock_acquire; map_find method; MutexLock_release]
                 ++ call_LoadEntry method :: calls
                 ++ [operator_new (List.length (heap s));
                     MutexLock_acquire; map_insert method;
                     MutexLock_release] |}))
  ∨ (∃ calls,
       method_vars_ s !! method = None ∧
       LoadEntry jvmti (local_variables_visibility_policy_ s) method
         = (None, calls) ∧
       GetLocalVariables jvmti method s =
         (List.length (heap s),
          {| local_variables_visibility_policy_ :=
               local_variables_visibility_policy_ s;
             method_vars_ := method_vars_ s;
             heap := heap s ++ [new_Entry];
             trace :=
               trace s
                 ++ [MutexLock_acquire; map_find method; MutexLock_release]
                 ++ call_LoadEntry method :: calls
                 ++ [operator_new (List.length (heap s))] |})).
Proof.
  destruct (method_vars_ s !! method) as [p|] eqn:Hp.
  { left. exists p. split; [done|]. by apply GetLocalVariables_cached. }
  right.
  destruct (LoadEntry jvmti (local_variables_visibility_policy_ s) method)
    as [[entry|] calls] eqn:Hload.
  - left. exists entry, calls. split; [done|]. split; [done|].
    rewrite (GetLocalVariables_loaded _ _ _ entry) by (by rewrite ?Hload).
    by rewrite Hload.
  - right. exists calls. split; [done|]. split; [done|].
    rewrite GetLocalVariables_failed by (by rewrite ?Hload).
    by rewrite Hload.
Qed.

(** X6. [GetLocalVariables] never hands out a dangling pointer: what it
    returns points to an allocated entry, and it is either the entry the map
    now holds for the handle or, when the load failed, an empty entry for a
    handle that stays unmapped. The map goes on pointing into the heap. *)
Theorem GetLocalVariables_returns_entry jvmti method s :
  wf s →
  wf (GetLocalVariables jvmti method s).2
  ∧ is_Some (heap (GetLocalVariables jvmti method s).2
               !! (GetLocalVariables jvmti method s).1)
  ∧ (method_vars_ (GetLocalVariables jvmti method s).2 !! method
       = Some (GetLocalVariables jvmti method s).1
     ∨ (method_vars_ (GetLocalVariables jvmti method s).2 !! method = None
        ∧ heap (GetLocalVariables jvmti method s).2
            !! (GetLocalVariables jvmti method s).1 = Some new_Entry
        ∧ (LoadEntry jvmti (local_variables_visibility_policy_ s) method).1
          = None)).
Proof.
  intros Hwf. split; [by apply GetLocalVariables_wf|].
  destruct (GetLocalVariables_cases jvmti method s) as
    [(p & Hp & ->)|[(entry & calls & Hmiss & Hload & ->)
                   |(calls & Hmiss & Hload & ->)]]; simpl.
  - split; [|by left]. apply lookup_lt_is_Some. by eapply Hwf.
  - split; [|left; by rewrite lookup_insert_eq].
    exists entry. by apply list_lookup_middle.
  - split; [exists new_Entry; by apply list_lookup_middle|].
    right. split; [done|]. split; [by apply list_lookup_middle|].
    by rewrite Hload.
Qed.

Lemma serve_policy s r :
  local_variables_visibility_policy_ (serve s r)
  = local_variables_visibility_policy_ s.
Proof. destruct r; simpl; [apply GetLocalVariables_policy|done]. Qed.

(** One request keeps the map pointing at entries that a load named by [Q]
    produced for the same handle. *)
Lemma serve_loaded (Q : request → Prop) policy s r :
  Q r →
  local_variables_visibility_policy_ s = policy →
  (∀ method p,
     method_vars_ s !! method = Some p →
     ∃ jvmti entry,
       Q (Get jvmti method) ∧ (LoadEntry jvmti policy method).1 = Some entry ∧
       heap s !! p = Some entry) →
  ∀ method p,
    method_vars_ (serve s r) !! method = Some p →
    ∃ jvmti entry,
      Q (Get jvmti method) ∧ (LoadEntry jvmti policy method).1 = Some entry ∧
      heap (serve s r) !! p = Some entry.
Proof.
  intros HQ Hpolicy Hinv m q.
  destruct r as [jvmti method|method]; simpl.
  - destruct (GetLocalVariables_cases jvmti method s) as
      [(p & Hp & ->)|[(entry & calls & Hmiss & Hload & ->)
                     |(calls & Hmiss & Hload & ->)]]; simpl.
    + apply Hinv.
    + destruct (decide (method = m)) as [->|Hne].
      * rewrite lookup_insert_eq. intros [= <-].
        exists jvmti, entry. split; [done|].
        rewrite <- Hpolicy, Hload. split; [done|].
        by apply list_lookup_middle.
      * rewrite lookup_insert_ne by done.
        intros (j & e & ? & ? & ?)%Hinv. exists j, e.
        split; [done|]. split; [done|]. by apply lookup_app_l_Some.
    + intros (j & e & ? & ? & ?)%Hinv. exists j, e.
      split; [done|]. split; [done|]. by apply lookup_app_l_Some.
  - intros [_ Hq]%lookup_delete_Some. by apply Hinv.
Qed.

(** X8. From construction on, whatever lookups and unload events are
    served, every pointer in the map points to an entry that a successful
    load for that very handle produced in one of the lookups served; the
    empty entry handed out after a failed load is never among them. *)
Theorem cache_holds_loaded_entries policy history method p :
  method_vars_ (serve_all history (MethodLocals_new policy)) !! method = Some p →
  ∃ jvmti entry,
    Get jvmti method ∈ history
    ∧ (LoadEntry jvmti policy method).1 = Some entry
    ∧ heap (serve_all history (MethodLocals_new policy)) !! p = Some entry.
Proof.
  revert method p.
  assert (Hgen : ∀ served s,
    local_variables_visibility_policy_ s = policy →
    Forall (λ r, r ∈ history) served →
    (∀ method p,
       method_vars_ s !! method = Some p →
       ∃ jvmti entry,
         Get jvmti method ∈ history ∧
         (LoadEntry jvmti policy method).1 = Some entry ∧
         heap s !! p = Some entry) →
    ∀ method p,
      method_vars_ (serve_all served s) !! method = Some p →
      ∃ jvmti entry,
        Get jvmti method ∈ history ∧
        (LoadEntry jvmti policy method).1 = Some entry ∧
        heap (serve_all served s) !! p = Some entry).
  { induction served as [|r served IH]; intros s Hpolicy Hin Hinv; [done|].
    apply Forall_cons in Hin as [Hr Hin].
    unfold serve_all in *. simpl. apply IH; [|done|].
    - by rewrite serve_policy.
    - by apply (serve_loaded (λ r, r ∈ history)). }
  apply Hgen; [done|by apply Forall_forall|].
  intros method p. simpl. by rewrite lookup_empty.
Qed.

Lemma serve_keeps_mapping s r method p :
  is_Unload_of method r = false →
  method_vars_ s !! method = Some p →
  method_vars_ (serve s r) !! method = Some p.
Proof.
  intros Hr Hp. destruct r as [jvmti m|m]; simpl.
  - destruct (GetLocalVariables_cases jvmti m s) as
      [(q & Hq & ->)|[(entry & calls & Hmiss & Hload & ->)
                     |(calls & Hmiss & Hload & ->)]]; simpl; try done.
    rewrite lookup_insert_ne; [done|]. congruence.
  - simpl in Hr. apply bool_decide_eq_false in Hr.
    by rewrite lookup_delete_ne.
Qed.

(** X9. Once a handle is mapped, and as long as no unload event for it is
    served, every lookup returns the same entry, whatever the JVM would
    answer by then and whatever else is served in between, and runs no
    load. *)
Theorem cached_entry_is_stable jvmti history method s p :
  method_vars_ s !! method = Some p →
  Forall (λ r, is_Unload_of method r = false) history →
  (GetLocalVariables jvmti method (serve_all history s)).1 = p
  ∧ call_LoadEntry method
      ∉ events_since (serve_all history s)
          (GetLocalVariables jvmti method (serve_all history s)).2.
Proof.
  intros Hp Hhistory.
  assert (method_vars_ (serve_all history s) !! method = Some p) as Hp'.
  { revert s Hp. induction Hhistory as [|r history Hr _ IH]; intros s Hp; [done|].
    unfold serve_all in *. simpl. apply IH. by apply serve_keeps_mapping. }
  destruct (GetLocalVariables_hit_no_load jvmti method _ p Hp')
    as (? & _ & _ & ?).
  done.
Qed.

(** X10. A lookup followed by the unload event for the same handle leaves
    the map as the unload event alone would have: without the handle, and
    with every other mapping as before. *)
Theorem lookup_then_unload jvmti method s :
  method_vars_
    (MethodLocals.JvmtiOnCompiledMethodUnload method
       (GetLocalVariables jvmti method s).2)
  = delete method (method_vars_ s).
Proof.
  destruct (GetLocalVariables_cases jvmti method s) as
    [(p & Hp & ->)|[(entry & calls & Hmiss & Hload & ->)
                   |(calls & Hmiss & Hload & ->)]]; simpl; try done.
  apply delete_insert_eq.
Qed.

End Histories.

(** * Locking over a history *)

Section HistoryLocking.
Implicit Types (s : state) (r : request) (history : list request).

(** A trace that keeps the discipline ends with the mutex free, so what
    follows it is judged from there. *)
Lemma locked_app held evs evs' :
  locked held evs = true → locked held (evs ++ evs') = locked false evs'.
Proof.
  revert held. induction evs as [|ev evs IH]; intros held; simpl.
  { by destruct held. }
  destruct ev; simpl;
    try (intros [? ?]%andb_true_iff; rewrite IH by done;
         repeat match goal with H : _ = true |- _ => rewrite H end; done);
    try (intros ?; by rewrite IH).
Qed.

Lemma serve_trace s r :
  ∃ evs, trace (serve s r) = trace s ++ evs ∧
         match r with
         | Get _ _ => locked false evs = true
         | Unload method => evs = [map_erase method]
         end.
Proof.
  destruct r as [jvmti method|method]; simpl.
  - pose proof (GetLocalVariables_locked jvmti method s) as Hlocked.
    destruct (GetLocalVariables_cases jvmti method s) as
      [(p & Hp & Heq)|[(entry & calls & Hmiss & Hload & Heq)
                      |(calls & Hmiss & Hload & Heq)]];
      rewrite Heq in Hlocked |- *; simpl in *.
    all: eexists; split; [done|].
    all: by erewrite events_since_app in Hlocked.
  - by eexists.
Qed.

(** X11. A history of requests served one after the other keeps the lock
    discipline (the map is touched only with the mutex held, loads run with
    the mutex free, the mutex is free in the end) exactly when it contains
    no unload event. *)
Theorem history_locked_iff history s :
  locked false (events_since s (serve_all history s)) = true ↔
  Forall (λ r, is_Get r = true) history.
Proof.
  assert (Hgen : ∀ history s,
    ∃ evs, trace (serve_all history s) = trace s ++ evs ∧
           (locked false evs = true ↔ Forall (λ r, is_Get r = true) history)).
  { clear. induction history as [|r history IH]; intros s.
    { exists []. by rewrite app_nil_r. }
    unfold serve_all in *. simpl.
    destruct (serve_trace s r) as (evs1 & Htrace1 & Hr).
    destruct (IH (serve s r)) as (evs2 & Htrace2 & Hlocked).
    exists (evs1 ++ evs2). rewrite Htrace2, Htrace1, <- app_assoc.
    split; [done|]. rewrite Forall_cons.
    destruct r as [jvmti method|method]; simpl.
    - rewrite (locked_app _ _ _ Hr). rewrite Hlocked. tauto.
    - subst evs1. simpl. split; [done|]. by intros [? _]. }
  destruct (Hgen history s) as (evs & Htrace & Hlocked).
  by rewrite (events_since_app _ _ _ Htrace).
Qed.

End HistoryLocking.

(** * Threads, whatever the loads do *)

Section Progress.
Implicit Types (s : state) (t : thread).

Lemma thread_step_method jvmti t s :
  method_of (thread_step jvmti t s).1 = method_of t.
Proof.
  destruct t as [m|m|m locals|m result]; unfold thread_step.
  - by destruct (find_cached m s) as [[p|] s'].
  - by destruct (call_LoadEntry_shared jvmti m s).
  - by destruct (publish m locals s).
  - done.
Qed.

Lemma run_method schedule sys i t :
  sys.1 !! i = Some t →
  ∃ t', (run schedule sys).1 !! i = Some t' ∧ method_of t' = method_of t.
Proof.
  revert sys t. induction schedule as [|next schedule IH]; intros sys t Ht.
  { by exists t. }
  unfold run in *. simpl.
  assert (∃ t1, (sys_step sys next).1 !! i = Some t1 ∧
                method_of t1 = method_of t) as (t1 & Ht1 & Hm1).
  { unfold sys_step.
    destruct (sys.1 !! next.1) as [t0|] eqn:Ht0; [|by exists t].
    pose proof (thread_step_method next.2 t0 sys.2) as Hm.
    destruct (thread_step _ _ _) as [t1 s1]. simpl in *.
    destruct (decide (next.1 = i)) as [<-|Hne].
    - exists t1. rewrite list_lookup_insert_eq by (by eapply lookup_lt_Some).
      split; [done|]. congruence.
    - exists t. by rewrite list_lookup_insert_ne. }
  destruct (IH _ _ Ht1) as (t' & Ht' & Hm').
  exists t'. split; [done|]. congruence.
Qed.

(** X12. [GetLocalVariables] has no retry loop: it is the lookup scope, the
    load and the insert scope, at most. Under any schedule, whatever the
    other threads did in between and whether or not the loads failed, a
    thread that got to run three of its steps has returned, for the handle
    it was called with. *)
Theorem scheduled_thrice_returns schedule threads s i t :
  threads !! i = Some t →
  (3 ≤ scheduled i schedule)%nat →
  ∃ result,
    (run schedule (threads, s)).1 !! i = Some (Returned (method_of t) result).
Proof.
  intros Ht Hfair.
  destruct (run_remaining schedule (threads, s) i t Ht) as (t' & Ht' & Hrem).
  destruct (run_method schedule (threads, s) i t Ht) as (t'' & Ht'' & Hm).
  rewrite Ht' in Ht''. injection Ht'' as <-.
  assert (remaining t ≤ 3)%nat by (destruct t; simpl; lia).
  destruct t' as [| | |m result]; simpl in Hrem; try lia.
  exists result. simpl in Hm. by rewrite <- Hm.
Qed.

End Progress.

(** * Unload events through the orchestrator *)

Section DebuggerExtras.
Context {EvalCallStack JvmBreakpointsManager ClassIndexer : Type}.
Context (EvalCallStack_JvmtiOnCompiledMethodUnload :
           jmethodID → EvalCallStack → EvalCallStack).
Context (JvmBreakpointsManager_JvmtiOnCompiledMethodUnload :
           jmethodID → JvmBreakpointsManager → JvmBreakpointsManager).

Abbreviation unload_each :=
  (Debugger.JvmtiOnCompiledMethodUnload_each
     EvalCallStack_JvmtiOnCompiledMethodUnload
     JvmBreakpointsManager_JvmtiOnCompiledMethodUnload).

(** X13. After the orchestrator has handled the unload events of a list of
    handles, the cache maps none of them and maps every other handle as
    before; no entry was allocated, the class indexer was not touched, and
    each event made three calls on the members. *)
Theorem unload_events_evict_exactly methods
    (d : @Debugger.Debugger EvalCallStack JvmBreakpointsManager ClassIndexer)
    method :
  method_vars_ (Debugger.method_locals_ (unload_each methods d)) !! method
    = (if decide (method ∈ methods) then None
       else method_vars_ (Debugger.method_locals_ d) !! method)
  ∧ heap (Debugger.method_locals_ (unload_each methods d))
    = heap (Debugger.method_locals_ d)
  ∧ Debugger.class_indexer_ (unload_each methods d) = Debugger.class_indexer_ d
  ∧ List.length (Debugger.calls (unload_each methods d))
    = (List.length (Debugger.calls d) + 3 * List.length methods)%nat.
Proof.
  revert d. induction methods as [|m methods IH]; intros d.
  { simpl. repeat split; try done; lia. }
  unfold Debugger.JvmtiOnCompiledMethodUnload_each in *. simpl foldl.
  destruct (IH (Debugger.JvmtiOnCompiledMethodUnload
                  EvalCallStack_JvmtiOnCompiledMethodUnload
                  JvmBreakpointsManager_JvmtiOnCompiledMethodUnload m d))
    as (Hvars & Hheap & Hindexer & Hcalls).
  rewrite Hvars, Hheap, Hindexer, Hcalls. simpl.
  repeat split.
  - destruct (decide (method = m)) as [->|Hne].
    + rewrite lookup_delete_eq. rewrite (decide_True (P := m ∈ m :: methods))
        by (apply elem_of_cons; by left).
      by case_decide.
    + rewrite lookup_delete_ne by done.
      destruct (decide (method ∈ methods)).
      * rewrite decide_True; [done|]. apply elem_of_cons. by right.
      * rewrite decide_False; [done|].
        intros [?|?]%elem_of_cons; done.
  - rewrite !length_app. simpl. lia.
Qed.

End DebuggerExtras.

(** * Threads on any handles, with loads that may fail *)

Section Safety.
Context (P : jmethodID → Entry → Prop).
Implicit Types (s : state) (t : thread) (jvmti : jvmtiEnv).

Lemma thread_safe_grown s s' t :
  grown s s' → thread_safe P s t → thread_safe P s' t.
Proof.
  intros (_ & [more Hheap] & Hvars) Ht.
  destruct t as [| |? [locals|]|m result]; try done; simpl in *.
  - destruct Ht as (entry & Hentry & HP). exists entry. split; [|done].
    rewrite Hheap. by apply lookup_app_l_Some.
  - destruct Ht as [Hm|Hempty]; [left; by apply Hvars|right].
    rewrite Hheap. by apply lookup_app_l_Some.
Qed.

Lemma thread_step_safe jvmti t s :
  (∀ method entry,
     (LoadEntry jvmti (local_variables_visibility_policy_ s) method).1
       = Some entry → P method entry) →
  cache_safe P s →
  thread_safe P s t →
  grown s (thread_step jvmti t s).2
  ∧ cache_safe P (thread_step jvmti t s).2
  ∧ thread_safe P (thread_step jvmti t s).2 (thread_step jvmti t s).1.
Proof.
  intros Hload Hcache Ht.
  destruct t as [m|m|m [locals|]|m result]; simpl.
  - (* the fast path *)
    unfold find_cached. simpl.
    destruct (method_vars_ s !! m) as [p|] eqn:Hp; simpl.
    + split; [split; [done|]; split; [by exists []; rewrite app_nil_r|done]|].
      split; [done|]. by left.
    + split; [split; [done|]; split; [by exists []; rewrite app_nil_r|done]|].
      done.
  - (* the load *)
    unfold call_LoadEntry_shared. specialize (Hload m).
    destruct (LoadEntry _ _ _) as [[entry|] calls]; simpl in *.
    + split; [split; [done|]; split; [by eexists|done]|].
      split.
      * intros m' p (e & He & HPe)%Hcache. exists e. split; [|done].
        simpl. by apply lookup_app_l_Some.
      * exists entry. split; [by apply list_lookup_middle|by apply Hload].
    + split; [split; [done|]; split; [by exists []; rewrite app_nil_r|done]|].
      done.
  - (* the insertion *)
    destruct Ht as (e & He & HPe).
    unfold insert_locals. simpl.
    destruct (method_vars_ s !! m) as [winner|] eqn:Hwinner; simpl.
    + split; [split; [done|]; split; [by exists []; rewrite app_nil_r|done]|].
      split; [done|]. by left.
    + split.
      { split; [done|]. split; [by exists []; rewrite app_nil_r|].
        intros m' p Hmp. simpl.
        destruct (decide (m = m')) as [->|Hne]; [congruence|].
        by rewrite lookup_insert_ne. }
      split.
      * intros m' p. simpl.
        destruct (decide (m = m')) as [<-|Hne].
        -- rewrite lookup_insert_eq. intros [= <-]. by exists e.
        -- rewrite lookup_insert_ne by done. apply Hcache.
      * left. simpl. by rewrite lookup_insert_eq.
  - (* the failed load: a new, empty entry *)
    split; [split; [done|]; split; [by eexists|done]|].
    split.
    + intros m' p (e & He & HPe)%Hcache. exists e. split; [|done].
      simpl. by apply lookup_app_l_Some.
    + right. by apply list_lookup_middle.
  - (* the thread has returned *)
    split; [split; [done|]; split; [by exists []; rewrite app_nil_r|done]|].
    done.
Qed.

Lemma run_safe policy schedule sys :
  Forall (λ next, ∀ method entry,
            (LoadEntry next.2 policy method).1 = Some entry → P method entry)
    schedule →
  local_variables_visibility_policy_ sys.2 = policy →
  cache_safe P sys.2 →
  Forall (thread_safe P sys.2) sys.1 →
  cache_safe P (run schedule sys).2
  ∧ Forall (thread_safe P (run schedule sys).2) (run schedule sys).1.
Proof.
  revert sys. induction schedule as [|next schedule IH]; intros sys; [done|].
  intros [Hnext Hloads]%Forall_cons Hpol Hcache Hthreads.
  unfold run in *. simpl.
  assert (local_variables_visibility_policy_ (sys_step sys next).2 = policy
          ∧ cache_safe P (sys_step sys next).2
          ∧ Forall (thread_safe P (sys_step sys next).2) (sys_step sys next).1)
    as (? & ? & ?); [|by apply IH].
  unfold sys_step.
  destruct (sys.1 !! next.1) as [t|] eqn:Ht; [|done].
  rewrite <- Hpol in Hnext.
  destruct (thread_step_safe next.2 t sys.2 Hnext Hcache) as (Hg & Hc & Hi).
  { by eapply Forall_lookup_1. }
  destruct (thread_step next.2 t sys.2) as [t' s']. simpl in *.
  split; [destruct Hg as [-> _]; done|]. split; [done|].
  apply Forall_insert; [|done].
  eapply Forall_impl; [done|]. intros t0. by apply thread_safe_grown.
Qed.

End Safety.

(** X14. Threads looking up any handles on a newly constructed cache, their
    steps interleaved in any order, the loads failing or not: at every point
    each pointer in the map points to an entry that one of the loads of the
    schedule produced for that very handle, and a thread that has returned
    holds the pointer the map holds for its handle or a pointer to an empty
    entry. *)
Theorem racing_threads_are_safe policy schedule methods :
  let sys := run schedule (Calling <$> methods, MethodLocals_new policy) in
  (∀ method p,
     method_vars_ sys.2 !! method = Some p →
     ∃ next entry,
       next ∈ schedule
       ∧ (LoadEntry next.2 policy method).1 = Some entry
       ∧ heap sys.2 !! p = Some entry)
  ∧ (∀ i method result,
       sys.1 !! i = Some (Returned method result) →
       method_vars_ sys.2 !! method = Some result
       ∨ heap sys.2 !! result = Some new_Entry).
Proof.
  simpl.
  set (P := λ method entry,
         ∃ next, next ∈ schedule ∧
                 (LoadEntry next.2 policy method).1 = Some entry).
  destruct (run_safe P policy schedule
              (Calling <$> methods, MethodLocals_new policy))
    as [Hcache Hthreads].
  { apply Forall_forall. intros next Hnext method entry Hload. by exists next. }
  { done. }
  { intros method p. simpl. by rewrite lookup_empty. }
  { apply Forall_fmap, Forall_true. done. }
  split.
  - intros method p (entry & Hentry & next & Hnext & Hload)%Hcache.
    by exists next, entry.
  - intros i method result Hi.
    by apply (proj1 (Forall_lookup _ _) Hthreads i _ Hi).
Qed.

(** * Sample runs of the further properties *)

Section MoreSamples.

(** A policy that shows everything. *)
Lemma permitting_policy_is_no_policy_witness :
  (LoadEntry jvm_ok (Some (λ _ _, true)) 5%N).1 = (LoadEntry jvm_ok None 5%N).1.
Proof.
  apply (permitting_policy_is_no_policy jvm_ok (λ _ _, true) 5%N).
  reflexivity.
Defined.

(** Public and final (0x11) instead of public (0x1): bit 3 is clear in both. *)
Lemma only_the_static_flag_matters_witness :
  (LoadLocalInstance (with_modifiers 0x11 jvm_ok) 1%N 5%N).1
  = (LoadLocalInstance jvm_ok 1%N 5%N).1.
Proof.
  apply (only_the_static_flag_matters jvm_ok 1%N 5%N 0x11).
  reflexivity.
Defined.

(** The first lookup on a new cache, while the table cannot be read. *)
Lemma GetLocalVariables_returns_entry_witness :
  is_Some
    (heap (GetLocalVariables jvm_table_failing 5%N (MethodLocals_new None)).2
       !! (GetLocalVariables jvm_table_failing 5%N (MethodLocals_new None)).1).
Proof.
  apply (GetLocalVariables_returns_entry jvm_table_failing 5%N
           (MethodLocals_new None) (MethodLocals_new_wf None)).
Defined.

(** A failed lookup, a successful one, an unrelated unload, another lookup:
    handle 5 is mapped to the second entry allocated. *)
Lemma cache_holds_loaded_entries_witness :
  ∃ jvmti entry,
    Get jvmti 5%N
      ∈ [Get jvm_table_failing 5%N; Get jvm_ok 5%N; Unload 6%N;
         Get jvm_no_debug_info 5%N]
    ∧ (LoadEntry jvmti None 5%N).1 = Some entry
    ∧ heap
        (serve_all
           [Get jvm_table_failing 5%N; Get jvm_ok 5%N; Unload 6%N;
            Get jvm_no_debug_info 5%N]
           (MethodLocals_new None)) !! 1%nat = Some entry.
Proof.
  apply (cache_holds_loaded_entries None
           [Get jvm_table_failing 5%N; Get jvm_ok 5%N; Unload 6%N;
            Get jvm_no_debug_info 5%N] 5%N 1%nat).
  reflexivity.
Defined.

(** Handle 5 is cached; handle 6 is looked up and unloaded; then the JVM has
    lost the debug information of 5. *)
Lemma cached_entry_is_stable_witness :
  (GetLocalVariables jvm_no_debug_info 5%N
     (serve_all [Get jvm_table_failing 6%N; Unload 6%N]
        (GetLocalVariables jvm_ok 5%N (MethodLocals_new None)).2)).1 = 0%nat.
Proof.
  apply (cached_entry_is_stable jvm_no_debug_info
           [Get jvm_table_failing 6%N; Unload 6%N] 5%N
           (GetLocalVariables jvm_ok 5%N (MethodLocals_new None)).2 0%nat).
  - reflexivity.
  - constructor; [reflexivity|]. constructor; [reflexivity|]. constructor.
Defined.

(** The second of the two racing threads. *)
Lemma scheduled_thrice_returns_witness :
  ∃ result,
    (run race_schedule (replicate 2 (Calling 5%N), MethodLocals_new None)).1
      !! 1%nat = Some (Returned 5%N result).
Proof.
  apply (scheduled_thrice_returns race_schedule (replicate 2 (Calling 5%N))
           (MethodLocals_new None) 1%nat (Calling 5%N)).
  - reflexivity.
  - vm_compute. lia.
Defined.

(** The first of the two racing threads returns the entry of the second. *)
Lemma racing_threads_are_safe_witness :
  method_vars_
    (run race_schedule (Calling <$> [5%N; 5%N], MethodLocals_new None)).2
    !! 5%N = Some 1%nat
  ∨ heap
      (run race_schedule (Calling <$> [5%N; 5%N], MethodLocals_new None)).2
      !! 1%nat = Some new_Entry.
Proof.
  apply (proj2 (racing_threads_are_safe None race_schedule [5%N; 5%N])
           0%nat 5%N 1%nat).
  reflexivity.
Defined.

End MoreSamples.
